(** * csvts: the row tokenizer and the record materializer of [src/lib/parser.ts]

    A shallow embedding of the [CsvParser] class: [detectNewline],
    [parseRow], [convertType] and [processData], together with the
    JavaScript string built-ins they call.

    Conventions of the embedding.
    - A JavaScript string is a sequence of code units; the model covers code
      units below 256, one [ascii] each, so a string is a Rocq [string].
    - [undefined] results of indexing ([row[i]] out of range, [headers[index]]
      past the end) are [None].
    - The option objects used as dictionaries ([parsers], [renameHeaders]) are
      plain objects: a finite map of own string keys, on top of the members
      every plain object inherits from [Object.prototype], which [obj[key]]
      finds when there is no own key. What such a member returns when it is
      called, and the text it has as a property key, are the runtime's.
    - A record built under headers is the finite map of its own properties.
      An assignment to the key [__proto__] creates none (it runs the inherited
      setter); the prototype of a record is not part of the model.
    - A call that may throw returns [res A]: [Ok] for a normal completion,
      [Throw] for an abrupt one carrying the thrown value. *)

From Stdlib Require Import ZArith Lia Ascii String DecimalString.
From stdpp Require Import gmap strings list sorting.

(** ** JavaScript string built-ins *)

Module JS.

(** The one-character string made of code unit [c]. *)
Definition str1 (c : ascii) : string := String c "".

(** [s[i]]: the code unit at index [i], [undefined] outside [0 .. length-1].
    The index is an integer because the source also reads [row[i - 1]]
    at [i = 0]. *)
Definition index (s : string) (i : Z) : option ascii :=
  if (i <? 0)%Z then None else String.get (Z.to_nat i) s.

(** [x === s] where [x] is the result of indexing a string and [s] a
    string: [undefined] equals no string, and a code unit equals [s] when
    [s] is exactly that one-character string. *)
Definition is_str (x : option ascii) (s : string) : bool :=
  match x with
  | Some c => String.eqb (str1 c) s
  | None => false
  end.

(** [s.slice(0, -1)]: all of [s] but its last code unit. *)
Fixpoint slice_0_m1 (s : string) : string :=
  match s with
  | "" => ""
  | String c "" => ""
  | String c s' => String c (slice_0_m1 s')
  end.

(** [s.startsWith(p)]. *)
Definition startsWith (s p : string) : bool := String.prefix p s.

(** [s.includes(p)]. *)
Fixpoint includes (s p : string) : bool :=
  String.prefix p s ||
  match s with
  | "" => false
  | String _ s' => includes s' p
  end.

(** White space and line terminators removed by [trim], among the code
    units below 256: TAB, LF, VT, FF, CR, SP and NBSP. *)
Definition is_space (c : ascii) : bool :=
  match c with
  | "009" | "010" | "011" | "012" | "013" | " " | "160" => true
  | _ => false
  end%char.

Fixpoint trimStart (s : string) : string :=
  match s with
  | "" => ""
  | String c s' => if is_space c then trimStart s' else s
  end.

(** [trimEnd s] drops the trailing run of white space: a code unit is kept
    when it is not white space or when something kept follows it. *)
Fixpoint trimEnd (s : string) : string :=
  match s with
  | "" => ""
  | String c s' =>
      match trimEnd s' with
      | "" => if is_space c then "" else str1 c
      | t => String c t
      end
  end.

Definition trim (s : string) : string := trimEnd (trimStart s).

(** [s.split(sep)] for a non-empty separator, scanning left to right.
    [skip] counts the code units of a separator occurrence still to be
    passed over; [cur] is the piece being accumulated. *)
Fixpoint split_go (sep : string) (skip : nat) (cur : string) (s : string)
  : list string :=
  match s with
  | "" => [cur]
  | String c s' =>
      match skip with
      | S k => split_go sep k cur s'
      | O =>
          if String.prefix sep s
          then cur :: split_go sep (String.length sep - 1) "" s'
          else split_go sep 0 (cur +:+ str1 c) s'
      end
  end.

Fixpoint code_units (s : string) : list string :=
  match s with
  | "" => []
  | String c s' => str1 c :: code_units s'
  end.

(** [s.split(sep)] with a string separator and no limit. An empty separator
    splits between all code units, and so gives the empty array for the
    empty string; a non-empty separator never gives the empty array. *)
Definition split (s sep : string) : list string :=
  match sep with
  | "" => code_units s
  | _ => split_go sep 0 "" s
  end.

Definition LF : string := str1 "010"%char.
Definition CR : string := str1 "013"%char.
Definition CRLF : string := CR +:+ LF.
(** The double-quote character. *)
Definition DQ : string := str1 "034"%char.

(** [String(n)] for a non-negative integer. *)
Definition of_nat (n : nat) : string := NilEmpty.string_of_uint (Nat.to_uint n).

End JS.

(** ** The control strings of the tokenizer *)

(** The three control strings [parseRow] reads from [this.options]. They are
    typed [string] in the source: nothing forces them to be one character
    long. *)
Record Control := {
  delimiter : string;
  quoteChar : string;
  escapeChar : string
}.

(** ** [parseRow] *)

(** The local variables of [parseRow]. *)
Record RowState := {
  values : list string;
  currentValue : string;
  isQuoted : bool;
  i : nat
}.

Definition initRow : RowState :=
  {| values := []; currentValue := ""; isQuoted := false; i := 0 |}.

(** One iteration of the [while] loop at a position [i < row.length], where
    [char = row[i]]; the trailing [i++] is folded into every branch. *)
Definition parseRow_body (o : Control) (row : string) (char : ascii)
    (st : RowState) : RowState :=
  let i0 := Z.of_nat (i st) in
  if JS.is_str (Some char) (quoteChar o) then
    if isQuoted st && JS.is_str (JS.index row (i0 + 1)) (delimiter o) then
      {| values := values st; currentValue := currentValue st;
         isQuoted := false; i := i st + 1 + 1 |}
    else if negb (isQuoted st) && String.eqb (currentValue st) "" then
      {| values := values st; currentValue := currentValue st;
         isQuoted := true; i := i st + 1 |}
    else if JS.is_str (JS.index row (i0 - 1)) (escapeChar o) then
      {| values := values st;
         currentValue := JS.slice_0_m1 (currentValue st) +:+ JS.str1 char;
         isQuoted := isQuoted st; i := i st + 1 |}
    else
      {| values := values st; currentValue := currentValue st;
         isQuoted := negb (isQuoted st); i := i st + 1 |}
  else if JS.is_str (Some char) (delimiter o) && negb (isQuoted st) then
    {| values := values st ++ [currentValue st]; currentValue := "";
       isQuoted := isQuoted st; i := i st + 1 |}
  else
    {| values := values st; currentValue := currentValue st +:+ JS.str1 char;
       isQuoted := isQuoted st; i := i st + 1 |}.

(** The [while (i < row.length)] loop followed by the final
    [values.push(currentValue)]. [row[i]] is defined exactly when
    [i < row.length]. [None] means the iteration budget ran out. *)
Fixpoint parseRow_while (fuel : nat) (o : Control) (row : string)
    (st : RowState) : option (list string) :=
  match fuel with
  | O => None
  | S fuel' =>
      match String.get (i st) row with
      | Some char => parseRow_while fuel' o row (parseRow_body o row char st)
      | None => Some (values st ++ [currentValue st])
      end
  end.

(** [parseRow]: every iteration advances [i], so [row.length + 1] iterations
    are enough (lemma [parseRow_while_scan]); the default is never used. *)
Definition parseRow (o : Control) (row : string) : list string :=
  default [] (parseRow_while (S (String.length row)) o row initRow).

(** The control strings set by the constructor: a comma, and the double
    quote for both quoting and escaping. *)
Definition defaultControl : Control :=
  {| delimiter := ","; quoteChar := JS.DQ; escapeChar := JS.DQ |}.

(** ** The scan of [parseRow], by recursion on the unread text *)

(** [scan o prev rest vs cur q] reads [rest], the part of the row from index
    [i] on, with [prev = row[i - 1]], [vs = values], [cur = currentValue] and
    [q = isQuoted]. Lemma [parseRow_while_scan] shows that the loop of
    [parseRow] computes it; the branch for a closing quote before a delimiter
    passes over two code units, as [i++; i++] does. *)
Fixpoint scan (o : Control) (prev : option ascii) (rest : string)
    (vs : list string) (cur : string) (q : bool) : list string :=
  match rest with
  | "" => vs ++ [cur]
  | String c rest' =>
      if JS.is_str (Some c) (quoteChar o) then
        if q && JS.is_str (String.get 0 rest') (delimiter o) then
          match rest' with
          | String d rest'' => scan o (Some d) rest'' vs cur false
          | "" => vs ++ [cur]
          end
        else if negb q && String.eqb cur "" then
          scan o (Some c) rest' vs cur true
        else if JS.is_str prev (escapeChar o) then
          scan o (Some c) rest' vs (JS.slice_0_m1 cur +:+ JS.str1 c) q
        else
          scan o (Some c) rest' vs cur (negb q)
      else if JS.is_str (Some c) (delimiter o) && negb q then
        scan o (Some c) rest' (vs ++ [cur]) "" q
      else
        scan o (Some c) rest' vs (cur +:+ JS.str1 c) q
  end.

(** ** Counting and cutting, for the statements about unquoted rows *)

(** [char === quoteChar] and [char === delimiter] for a code unit. *)
Definition isQuote (o : Control) (c : ascii) : bool :=
  JS.is_str (Some c) (quoteChar o).
Definition isDelimiter (o : Control) (c : ascii) : bool :=
  JS.is_str (Some c) (delimiter o).

(** The number of code units of [s] that satisfy [p]. *)
Fixpoint occurrences (p : ascii → bool) (s : string) : nat :=
  match s with
  | "" => 0
  | String c s' => (if p c then 1 else 0) + occurrences p s'
  end.

(** The literal text between consecutive code units satisfying [p]: the
    pieces [s] falls into when cut at each such code unit. *)
Fixpoint pieces (p : ascii → bool) (s : string) : list string :=
  match s with
  | "" => [""]
  | String c s' =>
      if p c then "" :: pieces p s'
      else match pieces p s' with
           | f :: fs => String c f :: fs
           | [] => [JS.str1 c]
           end
  end.

(** [glue cur fs] prepends the text already read to the first piece. *)
Definition glue (cur : string) (fs : list string) : list string :=
  match fs with
  | f :: fs' => (cur +:+ f) :: fs'
  | [] => [cur]
  end.

(** ** Plain objects *)

(** The members a plain object inherits from [Object.prototype], in the
    order of [Object.getOwnPropertyNames(Object.prototype)]. All are
    functions, except [__proto__], an accessor whose value is
    [Object.prototype] itself. *)
Inductive Member :=
  | MConstructor
  | MDefineGetter
  | MDefineSetter
  | MHasOwnProperty
  | MLookupGetter
  | MLookupSetter
  | MIsPrototypeOf
  | MPropertyIsEnumerable
  | MToString
  | MValueOf
  | MProto
  | MToLocaleString.

Definition members : list (string * Member) :=
  [ ("constructor", MConstructor);
    ("__defineGetter__", MDefineGetter);
    ("__defineSetter__", MDefineSetter);
    ("hasOwnProperty", MHasOwnProperty);
    ("__lookupGetter__", MLookupGetter);
    ("__lookupSetter__", MLookupSetter);
    ("isPrototypeOf", MIsPrototypeOf);
    ("propertyIsEnumerable", MPropertyIsEnumerable);
    ("toString", MToString);
    ("valueOf", MValueOf);
    ("__proto__", MProto);
    ("toLocaleString", MToLocaleString) ].

Fixpoint assoc {A} (key : string) (l : list (string * A)) : option A :=
  match l with
  | [] => None
  | (k, a) :: l' => if String.eqb k key then Some a else assoc key l'
  end.

(** [Object.prototype[key]] *)
Definition inherited (key : string) : option Member := assoc key members.

(** What [obj[key]] finds on a plain object whose own properties are [obj]:
    the own property, else the inherited member, else nothing
    ([undefined]). *)
Inductive Property (A : Type) :=
  | Own (a : A)
  | Inherited (m : Member).
Arguments Own {A} a.
Arguments Inherited {A} m.

Definition getProperty {A} (obj : gmap string A) (key : string)
  : option (Property A) :=
  match obj !! key with
  | Some a => Some (Own a)
  | None => Inherited <$> inherited key
  end.

(** An element of [headers] once the renaming has run: a string, or the
    member of [Object.prototype] that [renameHeaders[h]] found. *)
Inductive Header :=
  | HName (s : string)
  | HMember (m : Member).

(** ** Errors and metadata of a result *)

Module CsvError.
Record t := {
  type : string;
  code : string;
  message : string;
  row : option nat;
  index : option nat
}.
End CsvError.

Module CsvMeta.
Record t := {
  delimiter : string;
  linebreak : string;
  truncated : bool;
  fields : option (list Header);
  rows : nat
}.
End CsvMeta.

(** ** Host values *)

(** What the parser takes from the JavaScript runtime and this repository
    does not define: numbers with [Number(s)] and [isNaN], dates with
    [new Date(s)] and [getTime], and the values of any other kind a user
    callback may return. *)
Class Host := {
  number : Type;
  Number : string → number;
  isNaN : number → bool;
  date : Type;
  Date_new : string → date;
  Date_getTime : date → number;
  object : Type
}.

Section Parser.
Context {H : Host}.

(** A JavaScript value, as far as the parser can tell values apart. *)
Inductive Value :=
  | VUndefined
  | VNull
  | VBoolean (b : bool)
  | VNumber (n : number)
  | VString (s : string)
  | VDate (d : date)
  | VObject (o : object).

(** What a [throw] carries: an [Error] with its [message], or any other
    value. *)
Inductive thrown :=
  | ThrownError (message : string)
  | ThrownValue (v : Value).

(** The outcome of a call: normal completion or a thrown value. *)
Inductive res (A : Type) :=
  | Ok (a : A)
  | Throw (e : thrown).
Global Arguments Ok {A} a.
Global Arguments Throw {A} e.

Definition res_bind {A B} (f : A → res B) (x : res A) : res B :=
  match x with
  | Ok a => f a
  | Throw e => Throw e
  end.

#[global] Instance res_fmap : FMap res :=
  λ A B f x, match x with Ok a => Ok (f a) | Throw e => Throw e end.
#[global] Instance res_mbind : MBind res := @res_bind.
#[global] Instance res_mret : MRet res := @Ok.

(** [xs.map(f)] where [f] may throw: elements are visited in order and the
    first throw ends the call. *)
Fixpoint mapRes {A B} (f : A → res B) (xs : list A) : res (list B) :=
  match xs with
  | [] => Ok []
  | x :: xs' => y ← f x; ys ← mapRes f xs'; Ok (y :: ys)
  end.

(** What the members of [Object.prototype] do in the runtime:
    [call m this value] is the outcome of [this[key](value)] when [this[key]]
    is the inherited member [m] (for [__proto__], which is no function, the
    [TypeError] of the call), and [toPropertyKey m] is the string [m] is
    converted to when it is used as a property key: the source text of a
    function, which starts with [function], and [[object Object]] for the
    prototype. That text is never the name of a member. *)
Class ObjectPrototype := {
  call : Member → gmap string (string → res Value) → string → res Value;
  toPropertyKey : Member → string;
  toPropertyKey_fresh : ∀ m, inherited (toPropertyKey m) = None
}.
Context {P : ObjectPrototype}.

(** ** Options *)

(** The second argument of [transform] and the key of a stored value:
    [headers[index]] under headers ([undefined] past the last header),
    the numeric [index] otherwise. *)
Inductive Field :=
  | FHeader (h : option Header)
  | FIndex (index : nat).

(** [skipEmptyLines?: boolean | 'greedy'] *)
Inductive SkipEmptyLines := SelBool (b : bool) | SelGreedy.
(** [dynamicTyping?: boolean | { [key: string]: boolean }] *)
Inductive DynamicTyping := DtBool (b : bool) | DtMap (m : gmap string bool).
(** [comments?: boolean | string] *)
Inductive Comments := CmBool (b : bool) | CmString (s : string).

(** [Required<CsvParseOptions>], the resolved options held in
    [this.options]. [encoding] is read by [parseFile] only and is left out;
    [preview] is an integer. *)
Record CsvParseOptions := {
  control : Control;
  newline : string;
  header : bool;
  skipEmptyLines : SkipEmptyLines;
  transformHeader : string → res string;
  transform : Value → Field → res Value;
  dynamicTyping : DynamicTyping;
  comments : Comments;
  skipInvalidLines : bool;
  preview : Z;
  parsers : gmap string (string → res Value);
  renameHeaders : gmap string string
}.

(** The defaults set by the constructor. *)
Definition defaultOptions : CsvParseOptions := {|
  control := defaultControl;
  newline := "auto";
  header := true;
  skipEmptyLines := SelBool true;
  transformHeader := λ h, Ok h;
  transform := λ v _, Ok v;
  dynamicTyping := DtBool false;
  comments := CmBool false;
  skipInvalidLines := false;
  preview := 0;
  parsers := ∅;
  renameHeaders := ∅
|}.

(** Truthiness of the option values tested by [if], [!] and [&&]. *)
Definition truthy_sel (x : SkipEmptyLines) : bool :=
  match x with SelBool b => b | SelGreedy => true end.
Definition truthy_dt (x : DynamicTyping) : bool :=
  match x with DtBool b => b | DtMap _ => true end.
Definition truthy_cm (x : Comments) : bool :=
  match x with CmBool b => b | CmString s => negb (String.eqb s "") end.
Definition truthy_num (n : Z) : bool := negb (n =? 0)%Z.

(** ** Results *)

(** A parsed row: an object keyed by header under headers, an array
    otherwise. *)
Inductive ParsedRow :=
  | RowObject (m : gmap string Value)
  | RowArray (l : list Value).

Record CsvParseResult := {
  data : list ParsedRow;
  errors : list CsvError.t;
  meta : CsvMeta.t
}.

Definition push_data (r : ParsedRow) (result : CsvParseResult) :=
  {| data := data result ++ [r]; errors := errors result; meta := meta result |}.
Definition push_error (e : CsvError.t) (result : CsvParseResult) :=
  {| data := data result; errors := errors result ++ [e]; meta := meta result |}.
Definition set_truncated (b : bool) (result : CsvParseResult) :=
  {| data := data result; errors := errors result;
     meta := {| CsvMeta.delimiter := CsvMeta.delimiter (meta result);
                CsvMeta.linebreak := CsvMeta.linebreak (meta result);
                CsvMeta.truncated := b;
                CsvMeta.fields := CsvMeta.fields (meta result);
                CsvMeta.rows := CsvMeta.rows (meta result) |} |}.
Definition set_fields (hs : list Header) (result : CsvParseResult) :=
  {| data := data result; errors := errors result;
     meta := {| CsvMeta.delimiter := CsvMeta.delimiter (meta result);
                CsvMeta.linebreak := CsvMeta.linebreak (meta result);
                CsvMeta.truncated := CsvMeta.truncated (meta result);
                CsvMeta.fields := Some hs;
                CsvMeta.rows := CsvMeta.rows (meta result) |} |}.
Definition set_rows (n : nat) (result : CsvParseResult) :=
  {| data := data result; errors := errors result;
     meta := {| CsvMeta.delimiter := CsvMeta.delimiter (meta result);
                CsvMeta.linebreak := CsvMeta.linebreak (meta result);
                CsvMeta.truncated := CsvMeta.truncated (meta result);
                CsvMeta.fields := CsvMeta.fields (meta result);
                CsvMeta.rows := n |} |}.

(** ** [detectNewline] *)

Definition detectNewline (text : string) : string :=
  if JS.includes text JS.CRLF then JS.CRLF
  else if JS.includes text JS.LF then JS.LF
  else if JS.includes text JS.CR then JS.CR
  else JS.LF.

(** ** [convertType] *)

(** The [type] hint is never read by the source and is left out. *)
Definition convertType (o : CsvParseOptions) (value : string) : Value :=
  if negb (truthy_dt (dynamicTyping o)) then VString value
  else if String.eqb value "" then VNull
  else if String.eqb value "true" then VBoolean true
  else if String.eqb value "false" then VBoolean false
  else if String.eqb value "null" then VNull
  else if String.eqb value "undefined" then VUndefined
  else
    let num := Number value in
    if negb (isNaN num) then VNumber num
    else
      let date := Date_new value in
      if negb (isNaN (Date_getTime date)) then VDate date
      else VString value.

(** ** [processData] *)

(** The property key a field is converted to when it indexes an object: a
    string is its own key, [undefined] becomes the string ["undefined"], and
    a member of [Object.prototype] becomes its text. *)
Definition propKey (h : option Header) : string :=
  match h with
  | Some (HName s) => s
  | Some (HMember m) => toPropertyKey m
  | None => "undefined"
  end.

(** [const field = this.options.header ? headers[index] : index] *)
Definition fieldOf (o : CsvParseOptions) (headers : list Header) (index : nat)
  : Field :=
  if header o then FHeader (headers !! index) else FIndex index.

(** [this.options.header && this.options.parsers[field]], as the function
    that [this.options.parsers[field](value)] then calls: the parser
    configured under the key, or else the member inherited under it. *)
Definition parserFor (o : CsvParseOptions) (f : Field)
  : option (string → res Value) :=
  match f with
  | FHeader h =>
      if header o then
        match getProperty (parsers o) (propKey h) with
        | Some (Own parser) => Some parser
        | Some (Inherited m) => Some (call m (parsers o))
        | None => None
        end
      else None
  | FIndex _ => None
  end.

(** The converted and transformed value of one raw field: the first two
    statements of the [forEach] callback. *)
Definition fieldValue (o : CsvParseOptions) (f : Field) (value : string)
  : res Value :=
  parsedValue ← match parserFor o f with
                | Some parser => parser value
                | None => Ok (convertType o value)
                end;
  transform o parsedValue f.

(** [obj[key] = v] on a record: under the key [__proto__] the assignment
    runs the setter inherited from [Object.prototype] and the record gets no
    own property. *)
Definition assign (key : string) (v : Value) (m : gmap string Value)
  : gmap string Value :=
  if String.eqb key "__proto__" then m else <[key := v]> m.

(** [parsedRow[field] = parsedValue] under headers, [parsedRow.push] else. *)
Definition store (f : Field) (v : Value) (parsedRow : ParsedRow) : ParsedRow :=
  match f, parsedRow with
  | FHeader h, RowObject m => RowObject (assign (propKey h) v m)
  | FIndex _, RowArray l => RowArray (l ++ [v])
  | _, _ => parsedRow
  end.

(** [row.forEach((value, index) => ...)] from position [index] on. *)
Fixpoint forEach (o : CsvParseOptions) (headers : list Header) (index : nat)
    (row : list string) (parsedRow : ParsedRow) : res ParsedRow :=
  match row with
  | [] => Ok parsedRow
  | value :: row' =>
      let f := fieldOf o headers index in
      parsedValue ← fieldValue o f value;
      forEach o headers (S index) row' (store f parsedValue parsedRow)
  end.

(** The body of the [try] block, up to the value pushed on [result.data]. *)
Definition materialize (o : CsvParseOptions) (headers : list Header)
    (line : string) : res ParsedRow :=
  let row := parseRow (control o) line in
  let parsedRow := if header o then RowObject ∅ else RowArray [] in
  forEach o headers 0 row parsedRow.

(** [error instanceof Error ? error.message : 'Failed to parse row'] *)
Definition errorMessage (e : thrown) : string :=
  match e with
  | ThrownError m => m
  | ThrownValue _ => "Failed to parse row"
  end.

Definition invalidRow (e : thrown) (i : nat) : CsvError.t :=
  {| CsvError.type := "InvalidRow"; CsvError.code := "row_parse_failed";
     CsvError.message := errorMessage e; CsvError.row := Some (i + 1);
     CsvError.index := None |}.

Definition noData : CsvError.t :=
  {| CsvError.type := "NoData"; CsvError.code := "empty_file";
     CsvError.message := "No data found in CSV"; CsvError.row := None;
     CsvError.index := None |}.

(** The comment test of the row loop. *)
Definition isComment (o : CsvParseOptions) (line : string) : bool :=
  truthy_cm (comments o) &&
  JS.startsWith line
    (match comments o with CmString s => s | CmBool _ => "#" end).

(** [for (let i = 0; i < lines.length; i++)], from index [i] on, [lines]
    being the lines at indices [i ..]. [break] returns, [continue] moves to
    the next line, and a [throw] leaving the [catch] ends the call. *)
Fixpoint rowLoop (o : CsvParseOptions) (headers : list Header) (i : nat)
    (lines : list string) (result : CsvParseResult) : res CsvParseResult :=
  match lines with
  | [] => Ok result
  | l :: lines' =>
      if truthy_num (preview o)
         && (preview o <=? Z.of_nat (length (data result)))%Z
      then Ok (set_truncated true result)
      else
        let line := JS.trim l in
        if truthy_sel (skipEmptyLines o) && String.eqb line ""
        then rowLoop o headers (S i) lines' result
        else if isComment o line
        then rowLoop o headers (S i) lines' result
        else
          match materialize o headers line with
          | Ok parsedRow =>
              rowLoop o headers (S i) lines' (push_data parsedRow result)
          | Throw error =>
              if negb (skipInvalidLines o) then Throw error
              else rowLoop o headers (S i) lines'
                     (push_error (invalidRow error i) result)
          end
  end.

(** [renameHeaders[h] || h]: an own entry when it is not the empty string,
    else the member inherited under [h] (a function or an object, never
    falsy), else [h]. *)
Definition rename (o : CsvParseOptions) (h : string) : Header :=
  match getProperty (renameHeaders o) h with
  | Some (Own r) => if String.eqb r "" then HName h else HName r
  | Some (Inherited m) => HMember m
  | None => HName h
  end.

(** [meta.linebreak]: the configured separator, detected under ['auto']. *)
Definition linebreakOf (o : CsvParseOptions) (csvData : string) : string :=
  if String.eqb (newline o) "auto" then detectNewline csvData else newline o.

(** The [result] object as first built. *)
Definition initialResult (o : CsvParseOptions) (csvData : string)
  : CsvParseResult :=
  {| data := []; errors := [];
     meta := {| CsvMeta.delimiter := delimiter (control o);
                CsvMeta.linebreak := linebreakOf o csvData;
                CsvMeta.truncated := false;
                CsvMeta.fields := None;
                CsvMeta.rows := 0 |} |}.

(** [result.meta.rows = result.data.length; return result], reached when
    the row loop ends without a throw. *)
Definition finish (r : res CsvParseResult) : res CsvParseResult :=
  result ← r; Ok (set_rows (length (data result)) result).

Definition processData (o : CsvParseOptions) (csvData : string)
  : res CsvParseResult :=
  let result := initialResult o csvData in
  let lines := JS.split csvData (CsvMeta.linebreak (meta result)) in
  if header o then
    match lines with
    | [] => Ok (push_error noData result)
    | line0 :: lines' =>
        headers ← mapRes (transformHeader o) (parseRow (control o) line0);
        let headers := rename o <$> headers in
        finish (rowLoop o headers 0 lines' (set_fields headers result))
    end
  else finish (rowLoop o [] 0 lines result).

(** ** The tests of the row loop, named *)

(** The preview test at the top of the loop body. *)
Definition previewReached (o : CsvParseOptions) (result : CsvParseResult)
  : bool :=
  truthy_num (preview o) && (preview o <=? Z.of_nat (length (data result)))%Z.

(** The two [continue] tests: an empty line under [skipEmptyLines], or a
    comment line. *)
Definition skipped (o : CsvParseOptions) (l : string) : bool :=
  truthy_sel (skipEmptyLines o) && String.eqb (JS.trim l) ""
  || isComment o (JS.trim l).

(** [loopEntry o csvData headers lines result]: [processData] reaches its
    row loop with these headers, these lines still to read and this
    [result]. It does so unless the header transform throws or, under
    headers, there is no line at all. *)
Inductive loopEntry (o : CsvParseOptions) (csvData : string)
  : list Header → list string → CsvParseResult → Prop :=
  | entry_plain :
      header o = false →
      loopEntry o csvData [] (JS.split csvData (linebreakOf o csvData))
        (initialResult o csvData)
  | entry_header (line0 : string) (lines' : list string)
      (headers : list string) :
      header o = true →
      JS.split csvData (linebreakOf o csvData) = line0 :: lines' →
      mapRes (transformHeader o) (parseRow (control o) line0) = Ok headers →
      loopEntry o csvData (rename o <$> headers) lines'
        (set_fields (rename o <$> headers) (initialResult o csvData)).

Definition truncatedOf (r : CsvParseResult) : bool :=
  CsvMeta.truncated (meta r).

(** [stoppedEarly o csvData]: the row loop read some lines [pre] without
    stopping, and the preview test then held with a line [l] still to read,
    so that [l] and the lines after it were never read. *)
Definition stoppedEarly (o : CsvParseOptions) (csvData : string) : Prop :=
  ∃ hs lines r0 pre l post r1,
    loopEntry o csvData hs lines r0 ∧
    lines = pre ++ l :: post ∧
    rowLoop o hs 0 pre r0 = Ok r1 ∧ truncatedOf r1 = false ∧
    previewReached o r1 = true.

(** ** Options given by a caller *)

(** The constructor merges the caller's options over the defaults,
    [{ ...defaults, ...options }]; each function below overrides one key. *)
Definition with_newline (s : string) (o : CsvParseOptions) :=
  {| control := control o; newline := s; header := header o;
     skipEmptyLines := skipEmptyLines o; transformHeader := transformHeader o;
     transform := transform o; dynamicTyping := dynamicTyping o;
     comments := comments o; skipInvalidLines := skipInvalidLines o;
     preview := preview o; parsers := parsers o;
     renameHeaders := renameHeaders o |}.
Definition with_skipInvalidLines (b : bool) (o : CsvParseOptions) :=
  {| control := control o; newline := newline o; header := header o;
     skipEmptyLines := skipEmptyLines o; transformHeader := transformHeader o;
     transform := transform o; dynamicTyping := dynamicTyping o;
     comments := comments o; skipInvalidLines := b;
     preview := preview o; parsers := parsers o;
     renameHeaders := renameHeaders o |}.
Definition with_preview (p : Z) (o : CsvParseOptions) :=
  {| control := control o; newline := newline o; header := header o;
     skipEmptyLines := skipEmptyLines o; transformHeader := transformHeader o;
     transform := transform o; dynamicTyping := dynamicTyping o;
     comments := comments o; skipInvalidLines := skipInvalidLines o;
     preview := p; parsers := parsers o;
     renameHeaders := renameHeaders o |}.
Definition with_parsers (ps : gmap string (string → res Value))
    (o : CsvParseOptions) :=
  {| control := control o; newline := newline o; header := header o;
     skipEmptyLines := skipEmptyLines o; transformHeader := transformHeader o;
     transform := transform o; dynamicTyping := dynamicTyping o;
     comments := comments o; skipInvalidLines := skipInvalidLines o;
     preview := preview o; parsers := ps;
     renameHeaders := renameHeaders o |}.
Definition with_dynamicTyping (d : DynamicTyping) (o : CsvParseOptions) :=
  {| control := control o; newline := newline o; header := header o;
     skipEmptyLines := skipEmptyLines o; transformHeader := transformHeader o;
     transform := transform o; dynamicTyping := d;
     comments := comments o; skipInvalidLines := skipInvalidLines o;
     preview := preview o; parsers := parsers o;
     renameHeaders := renameHeaders o |}.

Definition with_renameHeaders (rs : gmap string string)
    (o : CsvParseOptions) :=
  {| control := control o; newline := newline o; header := header o;
     skipEmptyLines := skipEmptyLines o; transformHeader := transformHeader o;
     transform := transform o; dynamicTyping := dynamicTyping o;
     comments := comments o; skipInvalidLines := skipInvalidLines o;
     preview := preview o; parsers := parsers o;
     renameHeaders := rs |}.
Definition with_header (b : bool) (o : CsvParseOptions) :=
  {| control := control o; newline := newline o; header := b;
     skipEmptyLines := skipEmptyLines o; transformHeader := transformHeader o;
     transform := transform o; dynamicTyping := dynamicTyping o;
     comments := comments o; skipInvalidLines := skipInvalidLines o;
     preview := preview o; parsers := parsers o;
     renameHeaders := renameHeaders o |}.
(** A column parser that rejects one value, as
    [(value) => { if (value === 'invalid') throw new Error(...); return value }]. *)
Definition strictParser (s : string) : res Value :=
  if String.eqb s "invalid" then Throw (ThrownError "invalid age")
  else Ok (VString s).

(** [TextCsvParser.parse]: [new CsvParser(options).parse(this.csvText)]. *)
Definition parse (o : CsvParseOptions) (csvText : string)
  : res CsvParseResult :=
  processData o csvText.

End Parser.

(** ** Sample inputs *)

(** The text of the preview test of the repository: a header line and [n]
    data lines [val0,0], [val1,1], ... joined by line feeds. *)
Definition previewText (n : nat) : string :=
  String.concat JS.LF
    ("col1,col2"
     :: ((λ k, "val" +:+ JS.of_nat k +:+ "," +:+ JS.of_nat k) <$> seq 0 n)).

(** Three rows that convert and, as second data line, one that does not. *)
Definition agesText : string :=
  String.concat JS.LF
    ["name,age"; "John,30"; "Mary,invalid"; "Bob,30"; "Ann,25"].

(** The objects of the example host: those the members of
    [Object.prototype] return. *)
Inductive builtin :=
  | StringObject (s : string)
  | ThisObject
  | ProtoAccessor (setter : bool).

(** A small host for closed examples: a number is an integer or NaN,
    [Number] reads an unsigned decimal numeral (the empty string as 0), and
    no string is a date. *)
Fixpoint decimal (s : string) (acc : Z) : option Z :=
  match s with
  | "" => Some acc
  | String c s' =>
      match Ascii.is_nat c with
      | Some d => decimal s' (10 * acc + Z.of_nat d)%Z
      | None => None
      end
  end.

Definition decimalHost : Host := {|
  number := option Z;
  Number := λ s, decimal s 0;
  isNaN := λ n, match n with Some _ => false | None => true end;
  date := string;
  Date_new := λ s, s;
  Date_getTime := λ _, None;
  object := builtin
|}.

(** The members of [Object.prototype] in the example host, called on the
    object [this] with one string: [constructor] is [Object] and wraps the
    string; [__defineGetter__] and [__defineSetter__] miss their function
    argument and throw a [TypeError], as does the call of [__proto__], which
    is no function; [hasOwnProperty] and [propertyIsEnumerable] test the own
    keys; [__lookupGetter__] and [__lookupSetter__] find an accessor only
    under [__proto__]; [valueOf] returns [this]; [toString] gives
    [[object Object]], and so does [toLocaleString] unless [this] has a
    [toString] of its own, which it then calls without argument (here: with
    the text of [undefined]). Messages and texts are those of V8. *)
Definition decimalCall (m : Member)
    (this : gmap string (string → @res decimalHost (@Value decimalHost)))
    (value : string) : @res decimalHost (@Value decimalHost) :=
  let own := match this !! value with Some _ => true | None => false end in
  match m with
  | MConstructor => Ok (VObject (StringObject value : @object decimalHost))
  | MDefineGetter =>
      Throw (ThrownError "Object.prototype.__defineGetter__: Expecting function")
  | MDefineSetter =>
      Throw (ThrownError "Object.prototype.__defineSetter__: Expecting function")
  | MHasOwnProperty | MPropertyIsEnumerable => Ok (VBoolean own)
  | MLookupGetter =>
      Ok (if negb own && String.eqb value "__proto__"
          then VObject (ProtoAccessor false : @object decimalHost)
          else VUndefined)
  | MLookupSetter =>
      Ok (if negb own && String.eqb value "__proto__"
          then VObject (ProtoAccessor true : @object decimalHost)
          else VUndefined)
  | MIsPrototypeOf => Ok (VBoolean false)
  | MToString => Ok (VString "[object Object]")
  | MValueOf => Ok (VObject (ThisObject : @object decimalHost))
  | MProto => Throw (ThrownError "this.options.parsers[field] is not a function")
  | MToLocaleString =>
      match this !! "toString" with
      | Some toString => toString "undefined"
      | None => Ok (VString "[object Object]")
      end
  end.

Definition decimalKey (m : Member) : string :=
  match m with
  | MConstructor => "function Object() { [native code] }"
  | MDefineGetter => "function __defineGetter__() { [native code] }"
  | MDefineSetter => "function __defineSetter__() { [native code] }"
  | MHasOwnProperty => "function hasOwnProperty() { [native code] }"
  | MLookupGetter => "function __lookupGetter__() { [native code] }"
  | MLookupSetter => "function __lookupSetter__() { [native code] }"
  | MIsPrototypeOf => "function isPrototypeOf() { [native code] }"
  | MPropertyIsEnumerable => "function propertyIsEnumerable() { [native code] }"
  | MToString => "function toString() { [native code] }"
  | MValueOf => "function valueOf() { [native code] }"
  | MProto => "[object Object]"
  | MToLocaleString => "function toLocaleString() { [native code] }"
  end.

#[global] Instance decimalPrototype : @ObjectPrototype decimalHost := {|
  call := decimalCall;
  toPropertyKey := decimalKey;
  toPropertyKey_fresh := λ m,
    match m as m0 return inherited (decimalKey m0) = None with
    | MConstructor | MDefineGetter | MDefineSetter | MHasOwnProperty
    | MLookupGetter | MLookupSetter | MIsPrototypeOf | MPropertyIsEnumerable
    | MToString | MValueOf | MProto | MToLocaleString => eq_refl
    end
|}.


(** ** Measures and readings used by the further properties *)

(** The number of code units held by a list of fields. *)
Definition chars (fs : list string) : nat :=
  sum_list_with String.length fs.

(** [lastCode prev w]: the code unit read last once [w] has been read after
    [prev]; it is what [row[i - 1]] is at the position after [w]. *)
Fixpoint lastCode (prev : option ascii) (w : string) : option ascii :=
  match w with
  | "" => prev
  | String c w' => lastCode (Some c) w'
  end.

(** A line the row loop materializes: neither blank under [skipEmptyLines]
    nor a comment. *)
Definition kept `{Host} (o : CsvParseOptions) (l : string) : bool :=
  negb (skipped o l).

(** Two outcomes of a parse that agree on what a caller reads of the rows:
    the same thrown value, or the same records and the same error messages
    in the same order. *)
Definition sameRows `{Host} (x y : res CsvParseResult) : Prop :=
  match x, y with
  | Ok a, Ok b =>
      data a = data b
      ∧ CsvError.message <$> errors a = CsvError.message <$> errors b
  | Throw e1, Throw e2 => e1 = e2
  | _, _ => False
  end.


(** [s.slice(n)] for [0 <= n]: [s] without its first [n] code units. *)
Fixpoint sliceFrom (n : nat) (s : string) : string :=
  match n, s with
  | S k, String _ s' => sliceFrom k s'
  | _, _ => s
  end.

(** The key and string value of each raw field of [row], from position
    [idx] on, under the header names [hs]. *)
Fixpoint fieldPairs {H : Host} {P : ObjectPrototype} (hs : list Header)
    (idx : nat) (row : list string) : list (string * Value) :=
  match row with
  | [] => []
  | raw :: row' => (propKey (hs !! idx), VString raw) :: fieldPairs hs (S idx) row'
  end.

(** The object whose entries are the pairs of [fieldPairs], a later pair
    replacing an earlier one with the same key. *)
Definition objectOf {H : Host} {P : ObjectPrototype} (hs : list Header)
    (row : list string) : gmap string Value :=
  list_to_map (reverse (fieldPairs hs 0 row)).

(** One more caller option, as for [with_newline]. *)
Definition with_transformHeader `{Host} (f : string → res string)
    (o : CsvParseOptions) :=
  {| control := control o; newline := newline o; header := header o;
     skipEmptyLines := skipEmptyLines o; transformHeader := f;
     transform := transform o; dynamicTyping := dynamicTyping o;
     comments := comments o; skipInvalidLines := skipInvalidLines o;
     preview := preview o; parsers := parsers o;
     renameHeaders := renameHeaders o |}.

(** The text of [agesText] with a blank line and with spaces around a
    line. *)
Definition agesTextSpaced : string :=
  String.concat JS.LF
    ["name,age"; "John,30"; ""; "  Mary,invalid  "; "Bob,30"; ""; "Ann,25"].

(** The options of the witnesses: the defaults with the parser of
    [strictParser] on the column [age], keeping the rows that fail. *)
Definition skippingOptions : @CsvParseOptions decimalHost :=
  with_skipInvalidLines true
    (with_parsers {[ "age" := strictParser ]} defaultOptions).

(** * Properties *)

(** ** Strings *)

Lemma get_length_None (s : string) (n : nat) :
  String.length s ≤ n → String.get n s = None.
Proof.
  revert n. induction s as [|c s IH]; intros n Hn; [done|].
  destruct n as [|n]; simpl in *; [lia|]. apply IH. lia.
Qed.

Lemma app_cons (c : ascii) (s t : string) :
  String c s +:+ t = String c (s +:+ t).
Proof. reflexivity. Qed.

Lemma app_empty_l (t : string) : "" +:+ t = t.
Proof. reflexivity. Qed.

Lemma get_app_length (pre rest : string) (k : nat) :
  String.get (String.length pre + k) (pre +:+ rest) = String.get k rest.
Proof. induction pre as [|c pre IH]; [done|]. rewrite app_cons. exact IH. Qed.

Lemma append_assoc_str1 (pre rest : string) (c : ascii) :
  (pre +:+ JS.str1 c) +:+ rest = pre +:+ String c rest.
Proof.
  induction pre as [|d pre IH]; [done|]. rewrite !app_cons. by rewrite IH.
Qed.

Lemma length_append_str1 (pre : string) (c : ascii) :
  String.length (pre +:+ JS.str1 c) = S (String.length pre).
Proof.
  induction pre as [|d pre IH]; [done|]. rewrite app_cons. simpl.
  by rewrite IH.
Qed.

Lemma append_empty_r (s : string) : s +:+ "" = s.
Proof.
  induction s as [|c s IH]; [done|]. rewrite app_cons. by rewrite IH.
Qed.

Create Rewrite HintDb jsstring.
#[local] Hint Rewrite app_cons app_empty_l append_empty_r length_append_str1
  append_assoc_str1 : jsstring.

(** ** The loop of [parseRow] computes [scan] *)

Lemma index_pred_succ (row : string) (n : nat) :
  JS.index row (Z.of_nat (n + 1) - 1) = String.get n row.
Proof.
  unfold JS.index.
  replace (Z.of_nat (n + 1) - 1)%Z with (Z.of_nat n) by lia.
  destruct (Z.ltb_spec (Z.of_nat n) 0); [lia|]. by rewrite Nat2Z.id.
Qed.

Lemma index_succ (row : string) (n : nat) :
  JS.index row (Z.of_nat n + 1) = String.get (S n) row.
Proof.
  unfold JS.index.
  destruct (Z.ltb_spec (Z.of_nat n + 1) 0); [lia|].
  f_equal. lia.
Qed.

Lemma parseRow_while_scan_from (o : Control) (row : string) (n : nat) :
  ∀ (rest pre : string) (st : RowState) (fuel : nat),
    String.length rest ≤ n →
    String.length rest < fuel →
    row = pre +:+ rest →
    i st = String.length pre →
    parseRow_while fuel o row st
    = Some (scan o (JS.index row (Z.of_nat (i st) - 1)) rest
              (values st) (currentValue st) (isQuoted st)).
Proof.
  induction n as [|n IH]; intros rest pre st fuel Hn Hfuel Hrow Hi.
  - destruct rest; simpl in Hn; [|lia].
    destruct fuel as [|fuel]; [simpl in Hfuel; lia|]. simpl.
    rewrite get_length_None; [done|].
    rewrite Hrow, append_empty_r. lia.
  - destruct rest as [|c rest]; simpl in Hn.
    { destruct fuel as [|fuel]; [simpl in Hfuel; lia|]. simpl.
      rewrite get_length_None; [done|].
      rewrite Hrow, append_empty_r. lia. }
    destruct fuel as [|fuel]; [lia|]. simpl in Hfuel.
    assert (Hget : String.get (i st) row = Some c).
    { rewrite Hrow, Hi. rewrite <- (Nat.add_0_r (String.length pre)).
      by rewrite get_app_length. }
    assert (Hnext : JS.index row (Z.of_nat (i st) + 1) = String.get 0 rest).
    { rewrite index_succ, Hrow, Hi.
      replace (S (String.length pre)) with (String.length pre + 1) by lia.
      by rewrite get_app_length. }
    assert (Hrow1 : row = (pre +:+ JS.str1 c) +:+ rest).
    { by rewrite append_assoc_str1. }
    cbn [parseRow_while scan]. rewrite Hget.
    unfold parseRow_body. rewrite Hnext.
    destruct (JS.is_str (Some c) (quoteChar o)) eqn:Hq.
    + destruct (isQuoted st && JS.is_str (String.get 0 rest) (delimiter o))
        eqn:Hclose.
      * destruct rest as [|d rest].
        { apply andb_true_iff in Hclose as [_ Hd]. discriminate Hd. }
        simpl in Hn.
        rewrite (IH rest ((pre +:+ JS.str1 c) +:+ JS.str1 d)); simpl.
        -- rewrite index_pred_succ.
           replace (String.get (i st + 1) row) with (Some d); [done|].
           rewrite Hrow1, Hi.
           replace (String.length pre + 1)
             with (String.length (pre +:+ JS.str1 c) + 0)
             by (rewrite length_append_str1; lia).
           by rewrite get_app_length.
        -- lia.
        -- simpl in Hfuel. lia.
        -- by rewrite append_assoc_str1.
        -- rewrite !length_append_str1. lia.
      * destruct (negb (isQuoted st) && String.eqb (currentValue st) "");
          [|destruct (JS.is_str (JS.index row (Z.of_nat (i st) - 1))
                        (escapeChar o))];
          (rewrite (IH rest (pre +:+ JS.str1 c));
           [ cbn [i values currentValue isQuoted];
             rewrite index_pred_succ, Hget; reflexivity
           | lia | lia | exact Hrow1
           | cbn [i]; rewrite length_append_str1; lia ]).
    + destruct (JS.is_str (Some c) (delimiter o) && negb (isQuoted st));
        (rewrite (IH rest (pre +:+ JS.str1 c));
         [ cbn [i values currentValue isQuoted];
           rewrite index_pred_succ, Hget; reflexivity
         | lia | lia | exact Hrow1
         | cbn [i]; rewrite length_append_str1; lia ]).
Qed.

(** The iteration budget of [parseRow] is never exhausted. *)
Lemma parseRow_while_scan (o : Control) (row : string) :
  parseRow_while (S (String.length row)) o row initRow
  = Some (scan o None row [] "" false).
Proof.
  by rewrite (parseRow_while_scan_from o row (String.length row) row "");
    simpl; try lia.
Qed.

Lemma parseRow_scan (o : Control) (row : string) :
  parseRow o row = scan o None row [] "" false.
Proof. unfold parseRow. by rewrite parseRow_while_scan. Qed.

(** ** Totality of the tokenizer *)

Lemma scan_length (o : Control) (n : nat) :
  ∀ (rest : string) (prev : option ascii) (vs : list string) (cur : string)
    (q : bool),
    String.length rest ≤ n →
    length vs < length (scan o prev rest vs cur q).
Proof.
  induction n as [|n IH]; intros rest prev vs cur q Hn.
  - destruct rest; simpl in Hn; [|lia]. simpl. rewrite length_app. simpl. lia.
  - destruct rest as [|c rest]; simpl in Hn.
    { simpl. rewrite length_app. simpl. lia. }
    cbn [scan].
    repeat match goal with
           | |- context [if ?b then _ else _] => destruct b
           end;
      try (apply IH; lia).
    + destruct rest as [|d rest].
      * rewrite length_app. simpl. lia.
      * apply IH. simpl in Hn. lia.
    + etrans; [|apply IH; lia]. rewrite length_app. simpl. lia.
Qed.

Lemma parseRow_nonempty (o : Control) (row : string) :
  ∃ f fs, parseRow o row = f :: fs.
Proof.
  rewrite parseRow_scan.
  pose proof (scan_length o (String.length row) row None [] "" false
                (Nat.le_refl _)) as Hlen.
  destruct (scan o None row [] "" false) as [|f fs]; [simpl in Hlen; lia|].
  by exists f, fs.
Qed.

(** ** Rows without quote characters *)

Lemma pieces_nonempty (p : ascii → bool) (s : string) :
  ∃ f fs, pieces p s = f :: fs.
Proof.
  induction s as [|c s (f & fs & IH)]; simpl; [by eauto|].
  destruct (p c); [by eauto|]. rewrite IH. by eauto.
Qed.

Lemma pieces_length (p : ascii → bool) (s : string) :
  length (pieces p s) = occurrences p s + 1.
Proof.
  induction s as [|c s IH]; simpl; [done|].
  destruct (p c); simpl; [by rewrite IH|].
  destruct (pieces_nonempty p s) as (f & fs & Hp).
  rewrite Hp in *. simpl in *. lia.
Qed.

Lemma pieces_free (p : ascii → bool) (s : string) :
  Forall (λ f, occurrences p f = 0) (pieces p s).
Proof.
  induction s as [|c s IH]; simpl; [by repeat constructor|].
  destruct (p c) eqn:Hc; [by constructor|].
  destruct (pieces p s) as [|f fs]; [by repeat constructor; simpl; rewrite Hc|].
  inversion_clear IH. constructor; [|done]. simpl. by rewrite Hc.
Qed.

Lemma concat_cons_nonempty (sep x y : string) (ys : list string) :
  String.concat sep (x :: y :: ys) = x +:+ sep +:+ String.concat sep (y :: ys).
Proof. reflexivity. Qed.

Lemma isDelimiter_true (o : Control) (c : ascii) :
  isDelimiter o c = true → delimiter o = JS.str1 c.
Proof.
  unfold isDelimiter, JS.is_str. intros Hc. symmetry.
  by apply String.eqb_eq.
Qed.

Lemma pieces_concat (o : Control) (s : string) :
  String.concat (delimiter o) (pieces (isDelimiter o) s) = s.
Proof.
  induction s as [|c s IH]; simpl; [done|].
  destruct (pieces_nonempty (isDelimiter o) s) as (f & fs & Hp).
  rewrite Hp in *.
  destruct (isDelimiter o c) eqn:Hc.
  - rewrite concat_cons_nonempty, IH, (isDelimiter_true _ _ Hc). reflexivity.
  - destruct fs as [|g fs].
    + simpl in *. by rewrite IH.
    + rewrite concat_cons_nonempty, app_cons.
      rewrite concat_cons_nonempty in IH. by rewrite IH.
Qed.

Lemma scan_unquoted (o : Control) (rest : string) :
  ∀ (prev : option ascii) (vs : list string) (cur : string),
    occurrences (isQuote o) rest = 0 →
    scan o prev rest vs cur false
    = vs ++ glue cur (pieces (isDelimiter o) rest).
Proof.
  induction rest as [|c rest IH]; intros prev vs cur Hq.
  - simpl. by rewrite append_empty_r.
  - simpl in Hq. unfold isQuote in Hq at 1.
    destruct (JS.is_str (Some c) (quoteChar o)) eqn:Hc; [lia|].
    cbn [scan pieces]. rewrite Hc. fold (isDelimiter o c).
    rewrite andb_true_r.
    destruct (pieces_nonempty (isDelimiter o) rest) as (f & fs & Hp).
    destruct (isDelimiter o c).
    + rewrite IH by lia. rewrite Hp. simpl.
      autorewrite with jsstring. by rewrite <- app_assoc.
    + rewrite IH by lia. rewrite Hp. simpl.
      by autorewrite with jsstring.
Qed.

(** ** Quoted regions *)

Lemma pieces_whole (p : ascii → bool) (s : string) :
  occurrences p s = 0 → pieces p s = [s].
Proof.
  induction s as [|c s IH]; simpl; [done|].
  destruct (p c); [lia|]. intros Hs. by rewrite IH.
Qed.

(** Inside a quoted region every code unit other than the quote is data. *)
Lemma scan_quoted_run (o : Control) (w rest : string) :
  ∀ (prev : option ascii) (vs : list string) (cur : string),
    occurrences (isQuote o) w = 0 →
    ∃ prev',
      scan o prev (w +:+ rest) vs cur true
      = scan o prev' rest vs (cur +:+ w) true.
Proof.
  induction w as [|c w IH]; intros prev vs cur Hq.
  - exists prev. by autorewrite with jsstring.
  - simpl in Hq. unfold isQuote in Hq at 1.
    destruct (JS.is_str (Some c) (quoteChar o)) eqn:Hc; [lia|].
    rewrite app_cons. cbn [scan]. rewrite Hc, andb_false_r.
    destruct (IH (Some c) vs (cur +:+ JS.str1 c)) as [prev' ->]; [lia|].
    exists prev'. by autorewrite with jsstring.
Qed.

(** ** The row loop *)

(** Case analysis on one turn of the loop, once [rowLoop_cons] has exposed
    it: preview stop, skipped line, record, error kept, error thrown. *)
Ltac rowLoop_cases :=
  match goal with
  | |- context [previewReached ?o ?r] =>
      destruct (previewReached o r) eqn:?;
      [| match goal with
         | |- context [skipped o ?l] =>
             destruct (skipped o l) eqn:?;
             [| match goal with
                | |- context [materialize o ?hs ?line] =>
                    destruct (materialize o hs line) as [?pr|?e] eqn:?;
                    [| destruct (skipInvalidLines o) eqn:? ]
                end ]
         end ]
  end.

Section RowLoop.
Context {H : Host} {P : ObjectPrototype}.
Implicit Types (o : CsvParseOptions) (hs : list Header) (r : CsvParseResult).

Lemma processData_loop o csvData hs lines r :
  loopEntry o csvData hs lines r →
  processData o csvData = finish (rowLoop o hs 0 lines r).
Proof.
  unfold processData. intros [Hh|line0 lines' headers Hh Hsplit Hmap].
  - by rewrite Hh.
  - rewrite Hh. cbn [meta initialResult CsvMeta.linebreak].
    rewrite Hsplit, Hmap. reflexivity.
Qed.

(** One turn of the loop, by its four outcomes. *)
Lemma rowLoop_cons o hs i l ls r :
  rowLoop o hs i (l :: ls) r
  = if previewReached o r then Ok (set_truncated true r)
    else if skipped o l then rowLoop o hs (S i) ls r
    else match materialize o hs (JS.trim l) with
         | Ok pr => rowLoop o hs (S i) ls (push_data pr r)
         | Throw e =>
             if skipInvalidLines o
             then rowLoop o hs (S i) ls (push_error (invalidRow e i) r)
             else Throw e
         end.
Proof.
  unfold previewReached, skipped. cbn [rowLoop].
  destruct (truthy_num (preview o)
            && (preview o <=? Z.of_nat (length (data r)))%Z); [done|].
  destruct (truthy_sel (skipEmptyLines o) && String.eqb (JS.trim l) "");
    [done|].
  destruct (isComment o (JS.trim l)); [done|].
  destruct (materialize o hs (JS.trim l)) as [pr|e]; [done|].
  by destruct (skipInvalidLines o).
Qed.

Lemma rowLoop_preview o hs i l ls r :
  previewReached o r = true →
  rowLoop o hs i (l :: ls) r = Ok (set_truncated true r).
Proof. intros Hp. by rewrite rowLoop_cons, Hp. Qed.

Lemma rowLoop_skipped o hs i l ls r :
  previewReached o r = false → skipped o l = true →
  rowLoop o hs i (l :: ls) r = rowLoop o hs (S i) ls r.
Proof. intros Hp Hs. by rewrite rowLoop_cons, Hp, Hs. Qed.

Lemma rowLoop_ok o hs i l ls r pr :
  previewReached o r = false → skipped o l = false →
  materialize o hs (JS.trim l) = Ok pr →
  rowLoop o hs i (l :: ls) r = rowLoop o hs (S i) ls (push_data pr r).
Proof. intros Hp Hs Hm. by rewrite rowLoop_cons, Hp, Hs, Hm. Qed.

Lemma rowLoop_throw o hs i l ls r e :
  previewReached o r = false → skipped o l = false →
  materialize o hs (JS.trim l) = Throw e →
  rowLoop o hs i (l :: ls) r
  = if skipInvalidLines o
    then rowLoop o hs (S i) ls (push_error (invalidRow e i) r)
    else Throw e.
Proof. intros Hp Hs Hm. by rewrite rowLoop_cons, Hp, Hs, Hm. Qed.

(** Reading [pre ++ post] is reading [pre] and then, unless the preview test
    stopped the loop or a throw left it, reading [post]. *)
Lemma rowLoop_app o hs pre post :
  ∀ i r,
    truncatedOf r = false →
    rowLoop o hs i (pre ++ post) r
    = match rowLoop o hs i pre r with
      | Ok r1 =>
          if truncatedOf r1 then Ok r1
          else rowLoop o hs (i + length pre) post r1
      | Throw e => Throw e
      end.
Proof.
  induction pre as [|l pre IH]; intros i r Hr.
  - simpl. rewrite Hr. by rewrite Nat.add_0_r.
  - rewrite <- app_comm_cons, !rowLoop_cons. cbn [length].
    replace (i + S (length pre)) with (S i + length pre) by lia.
    rowLoop_cases; try done; by apply IH.
Qed.

(** The flag is set only where the preview test stops the loop. *)
Lemma rowLoop_truncated_inv o hs lines :
  ∀ i r r',
    truncatedOf r = false →
    rowLoop o hs i lines r = Ok r' →
    truncatedOf r' = true →
    ∃ pre l post r1,
      lines = pre ++ l :: post ∧
      rowLoop o hs i pre r = Ok r1 ∧ truncatedOf r1 = false ∧
      previewReached o r1 = true ∧ r' = set_truncated true r1.
Proof.
  induction lines as [|l lines IH]; intros i r r' Hr Hrun Ht.
  - simpl in Hrun. injection Hrun as <-. congruence.
  - assert (Hcons : ∀ r2,
      truncatedOf r2 = false →
      rowLoop o hs i [l] r = Ok r2 →
      rowLoop o hs (S i) lines r2 = Ok r' →
      ∃ pre l0 post r1,
        l :: lines = pre ++ l0 :: post ∧
        rowLoop o hs i pre r = Ok r1 ∧ truncatedOf r1 = false ∧
        previewReached o r1 = true ∧ r' = set_truncated true r1).
    { intros r2 Hr2 Hone Hrest.
      destruct (IH (S i) r2 r' Hr2 Hrest Ht)
        as (pre & l0 & post & r1 & -> & Hpre & Hr1 & Hp1 & ->).
      exists (l :: pre), l0, post, r1. repeat split; try done.
      change (l :: pre) with ([l] ++ pre).
      rewrite rowLoop_app, Hone, Hr2 by done.
      simpl. by rewrite Nat.add_1_r. }
    rewrite rowLoop_cons in Hrun. revert Hrun. rowLoop_cases; intros Hrun.
    + injection Hrun as <-. by exists [], l, lines, r.
    + apply (Hcons r); [done| |done]. by rewrite rowLoop_skipped.
    + apply (Hcons (push_data pr r)); [done| |done].
      by rewrite (rowLoop_ok _ _ _ _ _ _ pr).
    + apply (Hcons (push_error (invalidRow e i) r)); [done| |done].
      rewrite (rowLoop_throw _ _ _ _ _ _ e) by done.
      by destruct (skipInvalidLines o).
    + done.
Qed.

(** A normal completion of [processData] either is the empty-file return or
    comes out of the row loop. *)
Lemma processData_Ok_inv o csvData res :
  processData o csvData = Ok res →
  (header o = true ∧ JS.split csvData (linebreakOf o csvData) = [] ∧
   res = push_error noData (initialResult o csvData))
  ∨ ∃ hs lines r0 r',
      loopEntry o csvData hs lines r0 ∧
      rowLoop o hs 0 lines r0 = Ok r' ∧
      res = set_rows (length (data r')) r'.
Proof.
  intros Hrun. destruct (header o) eqn:Hh.
  - destruct (JS.split csvData (linebreakOf o csvData)) as [|line0 lines']
      eqn:Hsplit.
    + left. unfold processData in Hrun. rewrite Hh in Hrun.
      cbn [meta initialResult CsvMeta.linebreak] in Hrun.
      rewrite Hsplit in Hrun. by injection Hrun as <-.
    + right.
      destruct (mapRes (transformHeader o) (parseRow (control o) line0))
        as [headers|e] eqn:Hmap.
      * pose proof (entry_header o csvData line0 lines' headers Hh Hsplit Hmap)
          as Hentry.
        rewrite (processData_loop _ _ _ _ _ Hentry) in Hrun.
        unfold finish in Hrun.
        destruct (rowLoop o (rename o <$> headers) 0 lines' _) as [r'|e]
          eqn:Hloop; [|done].
        injection Hrun as <-. by eauto 10.
      * unfold processData in Hrun. rewrite Hh in Hrun.
        cbn [meta initialResult CsvMeta.linebreak] in Hrun.
        by rewrite Hsplit, Hmap in Hrun.
  - right. pose proof (entry_plain o csvData Hh) as Hentry.
    rewrite (processData_loop _ _ _ _ _ Hentry) in Hrun.
    unfold finish in Hrun.
    destruct (rowLoop o [] 0 _ _) as [r'|e] eqn:Hloop; [|done].
    injection Hrun as <-. by eauto 10.
Qed.

End RowLoop.

(** ** Materializing one row *)

Section Materialize.
Context {H : Host} {P : ObjectPrototype}.
Implicit Types (o : CsvParseOptions) (hs : list Header).

Lemma bind_Ok_inv {A B} (x : res A) (f : A → res B) (b : B) :
  x ≫= f = Ok b → ∃ a, x = Ok a ∧ f a = Ok b.
Proof. destruct x as [a|e]; [by exists a|done]. Qed.


Lemma fieldOf_header o hs j :
  header o = true → fieldOf o hs j = FHeader (hs !! j).
Proof. unfold fieldOf. by intros ->. Qed.

Lemma fieldOf_plain o hs j :
  header o = false → fieldOf o hs j = FIndex j.
Proof. unfold fieldOf. by intros ->. Qed.








Lemma forEach_Ok o hs row :
  ∀ idx pr,
    (∀ j raw, row !! j = Some raw →
       ∃ v, fieldValue o (fieldOf o hs (idx + j)) raw = Ok v) →
    ∃ pr', forEach o hs idx row pr = Ok pr'.
Proof.
  induction row as [|value row IH]; intros idx pr Hall; [by eexists|].
  cbn [forEach].
  destruct (Hall 0 value eq_refl) as (v0 & Hv0).
  rewrite Nat.add_0_r in Hv0. rewrite Hv0. simpl.
  apply IH. intros j raw Hj.
  replace (S idx + j) with (idx + S j) by lia. by apply Hall.
Qed.

End Materialize.

(** ** Claims about the tokenizer *)

(** C2 (the code differs). Under the default control strings, take the
    quoted field in which the word Hello stands between two doubled quotes,
    after [He said ] and before [ to me]. Each doubled quote should become
    one literal quote and nothing else should be lost. [parseRow] returns
    something else: the first quote of each pair toggles [isQuoted] and is
    not appended, so the [slice(0, -1)] done at the second quote removes the
    data character before the pair, the space before the first pair and the
    final letter of Hello before the second. This happens when the field is
    alone on its line and when it follows another field, as in the
    repository's test. *)
Theorem parseRow_doubled_quotes :
  parseRow defaultControl
    (JS.DQ +:+ "He said " +:+ JS.DQ +:+ JS.DQ +:+ "Hello" +:+ JS.DQ +:+ JS.DQ
     +:+ " to me" +:+ JS.DQ)
  = ["He said" +:+ JS.DQ +:+ "Hell" +:+ JS.DQ +:+ " to me"]
  ∧ parseRow defaultControl
      ("John," +:+ JS.DQ +:+ "He said " +:+ JS.DQ +:+ JS.DQ +:+ "Hello"
       +:+ JS.DQ +:+ JS.DQ +:+ " to me" +:+ JS.DQ)
    = ["John"; "He said" +:+ JS.DQ +:+ "Hell" +:+ JS.DQ +:+ " to me"].
Proof. split; by vm_compute. Qed.

(** C7 (the code differs). A quoted field containing the delimiter gives its
    literal content when it ends the line: [Software Engineer, Senior]
    between quotes is one raw field. When the quoted field is followed by a
    delimiter, the closing quote and the delimiter are passed over but no
    field is closed: the text after the delimiter is appended to the same
    field. The line for product P003 of the repository's fixture comes out in
    five fields instead of six, the description running into the price; in
    general a quoted [w] followed by a delimiter and by [t] gives the single
    field [w +:+ t]. *)
Theorem parseRow_quoted_delimiter :
  parseRow defaultControl (JS.DQ +:+ "Software Engineer, Senior" +:+ JS.DQ)
  = ["Software Engineer, Senior"]
  ∧ parseRow defaultControl
      ("P003,Basic Mouse," +:+ JS.DQ +:+ "Standard USB mouse, black" +:+ JS.DQ
       +:+ ",15.50,Electronics,false")
    = ["P003"; "Basic Mouse"; "Standard USB mouse, black15.50";
       "Electronics"; "false"]
  ∧ ∀ (o : Control) (q d : ascii) (w t : string),
      isQuote o q = true → isDelimiter o d = true →
      occurrences (isQuote o) w = 0 →
      occurrences (isQuote o) t = 0 → occurrences (isDelimiter o) t = 0 →
      parseRow o (String q w +:+ String q (String d t)) = [w +:+ t].
Proof.
  split; [by vm_compute|]. split; [by vm_compute|].
  intros o q d w t Hq Hd Hw Ht Htd.
  rewrite parseRow_scan, app_cons. cbn [scan].
  unfold isQuote in Hq. rewrite Hq. simpl.
  destruct (scan_quoted_run o w (String q (String d t)) (Some q) [] "" Hw)
    as [prev' ->].
  cbn [scan]. rewrite Hq. unfold isDelimiter in Hd.
  change (String.get 0 (String d t)) with (Some d). rewrite Hd. cbn [andb].
  rewrite scan_unquoted, pieces_whole by done. reflexivity.
Qed.

Lemma parseRow_quoted_delimiter_witness :
  parseRow defaultControl (JS.DQ +:+ "a,b" +:+ JS.DQ +:+ ",c") = ["a,bc"].
Proof.
  destruct parseRow_quoted_delimiter as (_ & _ & Hmerge).
  apply (Hmerge defaultControl "034"%char ","%char "a,b" "c");
    reflexivity.
Defined.

(** C8. For every line without quote characters and with [k] occurrences of
    the delimiter character, [parseRow] returns exactly [k + 1] raw fields,
    which are the literal pieces of the line between consecutive delimiters:
    joined by the delimiter they give the line back and none of them holds a
    delimiter. The empty line gives the single field [""]. *)
Theorem parseRow_unquoted (o : Control) (row : string)
    (Hquote : occurrences (isQuote o) row = 0) :
  parseRow o row = pieces (isDelimiter o) row
  ∧ length (parseRow o row) = occurrences (isDelimiter o) row + 1
  ∧ String.concat (delimiter o) (parseRow o row) = row
  ∧ Forall (λ f, occurrences (isDelimiter o) f = 0) (parseRow o row)
  ∧ (row = "" → parseRow o row = [""]).
Proof.
  assert (Hp : parseRow o row = pieces (isDelimiter o) row).
  { rewrite parseRow_scan, scan_unquoted by done.
    destruct (pieces_nonempty (isDelimiter o) row) as (f & fs & ->).
    reflexivity. }
  rewrite Hp. split; [done|]. split; [apply pieces_length|].
  split; [apply pieces_concat|]. split; [apply pieces_free|].
  by intros ->.
Qed.

Lemma parseRow_unquoted_witness :
  parseRow defaultControl "John,,New York" = ["John"; ""; "New York"].
Proof.
  destruct (parseRow_unquoted defaultControl "John,,New York" eq_refl)
    as [-> _].
  reflexivity.
Defined.

(** ** The model on tests of the repository that the code passes *)

Section Tests.
Context {H : Host} {P : ObjectPrototype}.

(** [should parse simple CSV text with headers] *)
Example test_simple_headers :
  parse defaultOptions (String.concat JS.LF ["name,age"; "John,30"; "Jane,25"])
  = Ok {| data :=
            [ RowObject {[ "name" := VString "John"; "age" := VString "30" ]};
              RowObject {[ "name" := VString "Jane"; "age" := VString "25" ]} ];
          errors := [];
          meta := {| CsvMeta.delimiter := ","; CsvMeta.linebreak := JS.LF;
                     CsvMeta.truncated := false;
                     CsvMeta.fields := Some [HName "name"; HName "age"];
                     CsvMeta.rows := 2 |} |}.
Proof. by vm_compute. Qed.

(** [should parse CSV text without headers] *)
Example test_without_headers :
  data <$> parse (with_header false defaultOptions)
             (String.concat JS.LF ["John,30"; "Jane,25"])
  = Ok [ RowArray [VString "John"; VString "30"];
         RowArray [VString "Jane"; VString "25"] ].
Proof. by vm_compute. Qed.

(** [should handle empty lines] *)
Example test_empty_lines :
  length ∘ data <$> parse defaultOptions
    (String.concat JS.LF ["name,age"; "John,30"; ""; "Jane,25"; ""; ""])
  = Ok 2.
Proof. by vm_compute. Qed.

(** [should handle empty fields] *)
Example test_empty_fields :
  data <$> parse defaultOptions
    (String.concat JS.LF ["name,age,city"; "John,,New York"; "Jane,25,"])
  = Ok [ RowObject {[ "name" := VString "John"; "age" := VString "";
                      "city" := VString "New York" ]};
         RowObject {[ "name" := VString "Jane"; "age" := VString "25";
                      "city" := VString "" ]} ].
Proof. by vm_compute. Qed.

End Tests.

(** ** Claims about the materializer *)

(** Decides the test [s === lit] of [convertType] for a string [s] known to
    differ from the literals it is compared with. *)
Ltac not_literal s lit :=
  destruct (String.eqb_spec s lit); [subst; set_solver|].

Section Claims.
Context {H : Host} {P : ObjectPrototype}.
Implicit Types (o : CsvParseOptions) (hs : list Header) (r : CsvParseResult).

Lemma split_go_nonempty (sep : string) (s : string) :
  ∀ skip cur, ∃ l ls, JS.split_go sep skip cur s = l :: ls.
Proof.
  induction s as [|c s IH]; intros skip cur; cbn [JS.split_go]; [by eauto|].
  destruct skip as [|k]; [|by apply IH].
  destruct (String.prefix sep (String c s)); [by eauto|by apply IH].
Qed.

(** [split] gives no line at all only for the empty text under the empty
    separator. *)
Lemma split_nil (s sep : string) : JS.split s sep = [] ↔ s = "" ∧ sep = "".
Proof.
  split; [|by intros [-> ->]].
  destruct sep as [|d sep]; simpl.
  - by destruct s.
  - intros Hs. destruct (split_go_nonempty (String d sep) s 0 "") as (l&ls&Hl).
    congruence.
Qed.

Lemma processData_no_lines o csvData :
  header o = true →
  JS.split csvData (linebreakOf o csvData) = [] →
  processData o csvData = Ok (push_error noData (initialResult o csvData)).
Proof.
  intros Hh Hsplit. unfold processData. rewrite Hh.
  cbn [meta initialResult CsvMeta.linebreak]. by rewrite Hsplit.
Qed.

(** C1 (the code differs). Parsing the empty text under headers should give
    no record and exactly the one [empty_file] error, with no fields. With the
    default options it does not: the empty text splits into one empty line,
    the test [lines.length === 0] fails, that line is read as the header
    row, and the result has no error and one empty field name. *)
Theorem parse_empty_text_default :
  parse defaultOptions ""
  = Ok {| data := []; errors := [];
          meta := {| CsvMeta.delimiter := ","; CsvMeta.linebreak := JS.LF;
                     CsvMeta.truncated := false;
                     CsvMeta.fields := Some [HName ""]; CsvMeta.rows := 0 |} |}.
Proof. by vm_compute. Qed.

Lemma mapRes_id {A} (f : A → res A) (xs : list A) :
  (∀ x, f x = Ok x) → mapRes f xs = Ok xs.
Proof.
  intros Hf. induction xs as [|x xs IH]; [done|].
  cbn [mapRes]. rewrite Hf, IH. reflexivity.
Qed.

(** The key of a header that is itself a member of [Object.prototype], and
    the key of a missing header, name no member. *)
Lemma propKey_fresh (h : option Header) :
  (∀ s, h = Some (HName s) → inherited s = None) →
  inherited (propKey h) = None.
Proof.
  intros Hs. destruct h as [[s|m]|]; cbn [propKey].
  - by apply Hs.
  - apply toPropertyKey_fresh.
  - reflexivity.
Qed.

Lemma plain_lookup hs (j : nat) :
  Forall (λ h, inherited (propKey (Some h)) = None) hs →
  inherited (propKey (hs !! j)) = None.
Proof.
  intros Hhs. destruct (hs !! j) as [h|] eqn:Hj; [|reflexivity].
  rewrite Forall_forall in Hhs. apply Hhs. by eapply list_elem_of_lookup_2.
Qed.

(** No key that names no member of [Object.prototype] finds a function in
    the empty [parsers] object. *)
Lemma parserFor_empty o (f : Field) :
  parsers o = ∅ →
  match f with
  | FHeader h => inherited (propKey h) = None
  | FIndex _ => True
  end →
  parserFor o f = None.
Proof.
  intros Hp Hf. unfold parserFor, getProperty. rewrite Hp.
  destruct f as [h|n]; [|done]. rewrite lookup_empty, Hf.
  by destruct (header o).
Qed.

Lemma fieldValue_default o (f : Field) (raw : string) :
  parsers o = ∅ → (∀ v g, transform o v g = Ok v) →
  match f with
  | FHeader h => inherited (propKey h) = None
  | FIndex _ => True
  end →
  fieldValue o f raw = Ok (convertType o raw).
Proof.
  intros Hp Ht Hf. unfold fieldValue. rewrite parserFor_empty by done.
  apply Ht.
Qed.

Lemma materialize_default o hs (line : string) :
  parsers o = ∅ → (∀ v g, transform o v g = Ok v) →
  Forall (λ h, inherited (propKey (Some h)) = None) hs →
  ∃ pr, materialize o hs line = Ok pr.
Proof.
  intros Hp Ht Hhs. unfold materialize. apply forEach_Ok.
  intros j raw _. eexists. apply fieldValue_default; [done..|].
  unfold fieldOf. destruct (header o); [|done]. by apply plain_lookup.
Qed.

(** When every renaming leaves a name that is no member of
    [Object.prototype], so does [rename] on every header. *)
Lemma rename_plain o (names : list string) :
  (∀ h to, renameHeaders o !! h = Some to →
           inherited (if String.eqb to "" then h else to) = None) →
  Forall (λ h, inherited (propKey (Some h)) = None) (rename o <$> names).
Proof.
  intros Hren. apply Forall_fmap, Forall_forall. intros h _.
  unfold rename, getProperty. simpl.
  destruct (renameHeaders o !! h) as [to|] eqn:Hto.
  - specialize (Hren h to Hto). by destruct (String.eqb to "").
  - destruct (inherited h) as [m|] eqn:Hm; simpl; [|done].
    apply toPropertyKey_fresh.
Qed.

(** When no row throws, the loop completes and records no error. *)
Lemma rowLoop_total o hs :
  (∀ line, ∃ pr, materialize o hs line = Ok pr) →
  ∀ lines i r, ∃ r', rowLoop o hs i lines r = Ok r' ∧ errors r' = errors r.
Proof.
  intros Hm. induction lines as [|l lines IH]; intros i r; [by eexists|].
  rewrite rowLoop_cons.
  destruct (previewReached o r); [by eexists|].
  destruct (skipped o l); [by apply IH|].
  destruct (Hm (JS.trim l)) as [pr ->].
  destruct (IH (S i) (push_data pr r)) as (r' & -> & He). by exists r'.
Qed.

Lemma loopEntry_fresh o csvData hs lines r :
  loopEntry o csvData hs lines r →
  truncatedOf r = false ∧ data r = [] ∧ errors r = [].
Proof. by intros [?|????]. Qed.


(** The number of records never passes a positive preview cap. *)
Lemma rowLoop_data_bound o hs (lines : list string) :
  ∀ i r r',
    (0 < preview o)%Z →
    (Z.of_nat (length (data r)) ≤ preview o)%Z →
    rowLoop o hs i lines r = Ok r' →
    (Z.of_nat (length (data r')) ≤ preview o)%Z.
Proof.
  induction lines as [|l lines IH]; intros i r r' Hpos Hle Hrun.
  - simpl in Hrun. by injection Hrun as <-.
  - rewrite rowLoop_cons in Hrun. revert Hrun.
    rowLoop_cases; intros Hrun; try done.
    + by injection Hrun as <-.
    + by apply (IH (S i) r r' Hpos).
    + apply (IH (S i) (push_data pr r) r' Hpos); [|done].
      assert (Hlt : (Z.of_nat (length (data r)) < preview o)%Z).
      { match goal with Hp : previewReached _ _ = false |- _ =>
          unfold previewReached, truthy_num in Hp;
          apply andb_false_iff in Hp as [Hp|Hp];
          [apply negb_false_iff, Z.eqb_eq in Hp|apply Z.leb_gt in Hp]
        end; lia. }
      simpl. rewrite length_app. simpl. lia.
    + by apply (IH (S i) (push_error (invalidRow e i) r) r' Hpos).
Qed.

(** C4. With a positive preview cap [p], the row loop stops before reading a
    line as soon as [p] records have been produced: it sets [truncated] and
    returns the records it has, leaving that line and the following ones
    unread, and a parse never returns more than [p] records. Parsing the
    text of 1000 data rows with [preview = 10] gives exactly 10 records and
    [truncated = true]; parsing it with no preview gives 1000 records and
    [truncated = false]. For every parse that returns, [truncated] is true
    exactly when the preview test stopped the loop with lines still to
    read. *)
Theorem preview_cap :
  (∀ o hs (i : nat) (l : string) (rest : list string) r,
     (0 < preview o)%Z → (preview o ≤ Z.of_nat (length (data r)))%Z →
     rowLoop o hs i (l :: rest) r
     = Ok {| data := data r; errors := errors r;
             meta := {| CsvMeta.delimiter := CsvMeta.delimiter (meta r);
                        CsvMeta.linebreak := CsvMeta.linebreak (meta r);
                        CsvMeta.truncated := true;
                        CsvMeta.fields := CsvMeta.fields (meta r);
                        CsvMeta.rows := CsvMeta.rows (meta r) |} |})
  ∧ (∀ o (csvText : string) res,
       (0 < preview o)%Z → parse o csvText = Ok res →
       (Z.of_nat (length (data res)) ≤ preview o)%Z)
  ∧ (∃ res, parse (with_preview 10 defaultOptions) (previewText 1000) = Ok res
            ∧ length (data res) = 10 ∧ truncatedOf res = true)
  ∧ (∃ res, parse defaultOptions (previewText 1000) = Ok res
            ∧ length (data res) = 1000 ∧ truncatedOf res = false)
  ∧ (∀ o (csvText : string) res,
       parse o csvText = Ok res →
       (truncatedOf res = true ↔ stoppedEarly o csvText)).
Proof.
  split; [|split; [|split; [|split]]].
  - intros o hs i l rest r Hpos Hle. apply rowLoop_preview.
    unfold previewReached, truthy_num.
    apply andb_true_iff. split.
    + apply negb_true_iff, Z.eqb_neq. lia.
    + by apply Z.leb_le.
  - intros o csvText res Hpos Hrun.
    apply processData_Ok_inv in Hrun
      as [(_ & _ & ->)|(hs & lines & r0 & r' & Hentry & Hloop & ->)].
    + simpl. lia.
    + simpl. eapply rowLoop_data_bound; [done| |done].
      destruct (loopEntry_fresh _ _ _ _ _ Hentry) as (_ & -> & _).
      simpl. lia.
  - set (run := parse (with_preview 10 defaultOptions) (previewText 1000)).
    assert (Hs : (res ← run; Ok (length (data res), truncatedOf res))
                 = Ok (10, true)) by (subst run; vm_compute; reflexivity).
    clearbody run. destruct run as [res|e]; [|discriminate Hs].
    exists res. split; [reflexivity|].
    change (Ok (length (data res), truncatedOf res) = Ok (10, true)) in Hs.
    by injection Hs as -> ->.
  - set (run := parse defaultOptions (previewText 1000)).
    assert (Hs : (res ← run; Ok (length (data res), truncatedOf res))
                 = Ok (1000, false)) by (subst run; vm_compute; reflexivity).
    clearbody run. destruct run as [res|e]; [|discriminate Hs].
    exists res. split; [reflexivity|].
    change (Ok (length (data res), truncatedOf res) = Ok (1000, false)) in Hs.
    by injection Hs as -> ->.
  - intros o csvText res Hrun. split.
    + intros Ht. apply processData_Ok_inv in Hrun
        as [(_ & _ & ->)|(hs & lines & r0 & r' & Hentry & Hloop & ->)];
        [done|].
      destruct (loopEntry_fresh _ _ _ _ _ Hentry) as (Hr0 & _ & _).
      destruct (rowLoop_truncated_inv _ _ _ _ _ _ Hr0 Hloop Ht)
        as (pre & l & post & r1 & -> & Hpre & Hr1 & Hp & _).
      by exists hs, (pre ++ l :: post), r0, pre, l, post, r1.
    + intros (hs & lines & r0 & pre & l & post & r1
              & Hentry & -> & Hpre & Hr1 & Hp).
      unfold parse in Hrun. rewrite (processData_loop _ _ _ _ _ Hentry) in Hrun.
      destruct (loopEntry_fresh _ _ _ _ _ Hentry) as (Hr0 & _ & _).
      rewrite rowLoop_app, Hpre, Hr1, rowLoop_preview in Hrun by done.
      by injection Hrun as <-.
Qed.


(** C6. With dynamic typing disabled [convertType] returns the string
    unchanged. With dynamic typing enabled it applies the first rule that
    matches, in this order: the empty string gives null; ["true"] and
    ["false"] give the booleans; ["null"] gives null; ["undefined"] gives
    undefined; a string that [Number] reads as a number (not NaN) gives that
    number; a string that [Date] reads as a valid date gives that date; any
    other string is returned unchanged. In particular ["30"] gives the number
    [Number("30")], ["true"] gives true and [""] gives null. *)
Theorem convertType_priority o (s : string) :
  (truthy_dt (dynamicTyping o) = false → convertType o s = VString s)
  ∧ (truthy_dt (dynamicTyping o) = true →
     (s = "" → convertType o s = VNull)
     ∧ (s = "true" → convertType o s = VBoolean true)
     ∧ (s = "false" → convertType o s = VBoolean false)
     ∧ (s = "null" → convertType o s = VNull)
     ∧ (s = "undefined" → convertType o s = VUndefined)
     ∧ (s ∉ [""; "true"; "false"; "null"; "undefined"] →
        (isNaN (Number s) = false → convertType o s = VNumber (Number s))
        ∧ (isNaN (Number s) = true →
           isNaN (Date_getTime (Date_new s)) = false →
           convertType o s = VDate (Date_new s))
        ∧ (isNaN (Number s) = true →
           isNaN (Date_getTime (Date_new s)) = true →
           convertType o s = VString s))
     ∧ (isNaN (Number "30") = false →
        convertType o "30" = VNumber (Number "30"))
     ∧ convertType o "true" = VBoolean true
     ∧ convertType o "" = VNull).
Proof.
  unfold convertType. split; [by intros ->|]. intros ->. cbn [negb].
  split; [by intros ->|]. split; [by intros ->|]. split; [by intros ->|].
  split; [by intros ->|]. split; [by intros ->|].
  split; [|split; [intros Hn; simpl; by rewrite Hn|done]].
  intros Hs.
  not_literal s ""; not_literal s "true"; not_literal s "false";
    not_literal s "null"; not_literal s "undefined".
  split; [by intros ->|]. split; intros -> ->; done.
Qed.


(** C10 (amended). The tokenizer is total: for every line and all control
    strings the loop of [parseRow] ends within its iteration budget and
    returns a non-empty list of fields. Consequently, for every text, when no
    parser override is configured, the value transform and the header
    transform are the identity, and no renaming leaves a header with the name
    of a member of [Object.prototype] (a renaming to a non-empty string
    leaves that string, a renaming to the empty string leaves the header
    itself; no renaming at all, the default, is the first case), the parse
    never raises; its error list is empty, except that under headers the
    empty text with the empty explicit line separator has no line at all and
    gives exactly the [empty_file] error and no record. *)
Theorem parse_total_by_default :
  (∀ (c : Control) (row : string),
     ∃ f fs, parseRow_while (S (String.length row)) c row initRow
             = Some (f :: fs)
             ∧ parseRow c row = f :: fs)
  ∧ ∀ o (csvText : string),
      parsers o = ∅ →
      (∀ v f, transform o v f = Ok v) →
      (∀ h, transformHeader o h = Ok h) →
      (∀ h to, renameHeaders o !! h = Some to →
               inherited (if String.eqb to "" then h else to) = None) →
      ∃ r, parse o csvText = Ok r ∧
           if header o && String.eqb csvText "" && String.eqb (newline o) ""
           then errors r = [noData] ∧ data r = []
           else errors r = [].
Proof.
  split.
  { intros c row. destruct (parseRow_nonempty c row) as (f & fs & Hp).
    exists f, fs. split; [|done].
    by rewrite parseRow_while_scan, <- parseRow_scan, Hp. }
  intros o csvText Hp Ht Hth Hren. unfold parse.
  assert (Hloop : ∀ hs lines r0,
    loopEntry o csvText hs lines r0 →
    ∃ r, processData o csvText = Ok r ∧ errors r = []).
  { intros hs lines r0 Hentry.
    assert (Hhs : Forall (λ h, inherited (propKey (Some h)) = None) hs).
    { destruct Hentry; [by constructor|by apply rename_plain]. }
    rewrite (processData_loop _ _ _ _ _ Hentry).
    destruct (rowLoop_total o hs
                (λ line, materialize_default o hs line Hp Ht Hhs)
                lines 0 r0) as (r' & -> & He).
    eexists. split; [reflexivity|]. simpl. rewrite He.
    by destruct (loopEntry_fresh _ _ _ _ _ Hentry) as (_ & _ & ->). }
  destruct (header o) eqn:Hh; cbn [andb].
  - destruct (JS.split csvText (linebreakOf o csvText)) as [|line0 lines']
      eqn:Hsplit.
    + rewrite processData_no_lines by done.
      apply split_nil in Hsplit as [-> Hlb].
      unfold linebreakOf in Hlb.
      destruct (String.eqb (newline o) "auto"); [done|].
      rewrite Hlb. eexists. split; [reflexivity|]. done.
    + destruct (String.eqb csvText "" && String.eqb (newline o) "") eqn:Hempty.
      { apply andb_true_iff in Hempty as [Ht0 Hn0].
        apply String.eqb_eq in Ht0, Hn0. subst csvText.
        unfold linebreakOf in Hsplit. rewrite Hn0 in Hsplit. done. }
      eapply Hloop, (entry_header o csvText line0 lines'); [done..|].
      by apply mapRes_id.
  - eapply Hloop, entry_plain. done.
Qed.

End Claims.

(** ** Closed instances *)

(** C10 as stated fails: with the explicit separator [""] the empty text has
    no line at all, and under headers the parse then returns the
    [empty_file] error although no parser override is configured and both
    transforms are the identity. *)
Lemma parse_errors_counterexample :
  ¬ ∀ (H : Host) (P : @ObjectPrototype H) (o : @CsvParseOptions H)
      (csvText : string),
      parsers o = ∅ →
      (∀ v f, transform o v f = Ok v) →
      (∀ h, transformHeader o h = Ok h) →
      ∃ r, parse (P := P) o csvText = Ok r ∧ errors r = [].
Proof.
  intros Hall.
  destruct (Hall decimalHost decimalPrototype
              (with_newline "" defaultOptions) "")
    as (r & Hr & He); [done..|].
  vm_compute in Hr. injection Hr as <-. discriminate He.
Qed.

(** Nor does C10 hold of every renaming: a header renamed to
    [__defineGetter__] has that string as its key, [parsers] inherits a
    function under it although no parser is configured, and calling it
    throws. *)
Example inherited_parser_throws :
  parse (H := decimalHost)
    (with_renameHeaders {[ "x" := "__defineGetter__" ]} defaultOptions)
    (String.concat JS.LF ["x"; "1"])
  = Throw (ThrownError "Object.prototype.__defineGetter__: Expecting function").
Proof. by vm_compute. Qed.

(** A header that names a member of [Object.prototype] is replaced by that
    member under the default (empty) [renameHeaders], and the record is
    keyed by the member's text. *)
Example inherited_header_replaced :
  parse (H := decimalHost) defaultOptions
    (String.concat JS.LF ["constructor,b"; "1,2"])
  = Ok {| data :=
            [ RowObject {[ "function Object() { [native code] }" := VString "1";
                           "b" := VString "2" ]} ];
          errors := [];
          meta := {| CsvMeta.delimiter := ","; CsvMeta.linebreak := JS.LF;
                     CsvMeta.truncated := false;
                     CsvMeta.fields := Some [HMember MConstructor; HName "b"];
                     CsvMeta.rows := 1 |} |}.
Proof. by vm_compute. Qed.

Lemma parse_total_by_default_witness :
  ∃ r, parse (H := decimalHost)
         (with_renameHeaders {[ "name" := "fullName" ]} defaultOptions)
         agesText = Ok r
       ∧ errors r = [].
Proof.
  destruct (parse_total_by_default (H := decimalHost)) as [_ Hparse].
  apply (Hparse (with_renameHeaders {[ "name" := "fullName" ]} defaultOptions)
           agesText); [reflexivity..|].
  intros h to Hto. cbn [renameHeaders with_renameHeaders] in Hto.
  apply lookup_singleton_Some in Hto as [<- <-]. reflexivity.
Defined.


Lemma preview_cap_witness :
  ∃ res, parse (H := decimalHost) (with_preview 2 defaultOptions)
           (previewText 5) = Ok res
         ∧ (Z.of_nat (length (data res)) ≤ 2)%Z.
Proof.
  destruct (preview_cap (H := decimalHost)) as (_ & Hcap & _).
  specialize (Hcap (with_preview 2 defaultOptions) (previewText 5)).
  set (run := parse (with_preview 2 defaultOptions) (previewText 5)) in *.
  assert (Hs : (res ← run; Ok (length (data res))) = Ok 2)
    by (subst run; vm_compute; reflexivity).
  clearbody run. destruct run as [res|e]; [|discriminate Hs].
  exists res. split; [reflexivity|].
  apply Hcap; reflexivity.
Defined.


(** Such headers come from a renaming: with [x] renamed to [valueOf] and to
    [toString] and no parser configured, the members that [parsers] inherits
    are called, and the record holds what they return. *)
Example inherited_parser_called :
  data <$> parse (H := decimalHost)
             (with_renameHeaders {[ "x" := "valueOf"; "y" := "toString" ]}
                defaultOptions)
             (String.concat JS.LF ["x,y"; "7,8"])
  = Ok [ RowObject {[ "valueOf" := VObject (ThisObject : @object decimalHost);
                      "toString" := VString "[object Object]" ]} ].
Proof. by vm_compute. Qed.


Lemma convertType_priority_witness :
  convertType (H := decimalHost)
    (with_dynamicTyping (DtBool true) defaultOptions) "30"
  = VNumber (Some 30%Z : @number decimalHost).
Proof.
  destruct (convertType_priority (H := decimalHost)
              (with_dynamicTyping (DtBool true) defaultOptions) "30")
    as [_ Hon].
  destruct (Hon eq_refl) as (_ & _ & _ & _ & _ & _ & H30 & _).
  exact (H30 eq_refl).
Defined.


(** * Further properties *)

(** ** The tokenizer: bounds *)

Lemma slice_0_m1_length (s : string) :
  String.length (JS.slice_0_m1 s) ≤ String.length s.
Proof.
  induction s as [|c s IH]; simpl; [done|].
  destruct s; simpl in *; lia.
Qed.

Lemma scan_field_count (o : Control) (n : nat) :
  ∀ (rest : string) (prev : option ascii) (vs : list string) (cur : string)
    (q : bool),
    String.length rest ≤ n →
    length (scan o prev rest vs cur q)
    ≤ length vs + 1 + occurrences (isDelimiter o) rest.
Proof.
  induction n as [|n IH]; intros rest prev vs cur q Hn.
  - destruct rest; simpl in Hn; [|lia]. simpl. rewrite length_app. simpl. lia.
  - destruct rest as [|c rest]; simpl in Hn.
    { simpl. rewrite length_app. simpl. lia. }
    cbn [scan occurrences].
    assert (Hocc : occurrences (isDelimiter o) rest
                   ≤ (if isDelimiter o c then 1 else 0)
                     + occurrences (isDelimiter o) rest) by lia.
    destruct (JS.is_str (Some c) (quoteChar o)).
    + destruct (q && JS.is_str (String.get 0 rest) (delimiter o)).
      * destruct rest as [|d rest].
        -- rewrite length_app. simpl. lia.
        -- etrans; [apply IH; simpl in Hn; lia|]. cbn [occurrences]. lia.
      * destruct (negb q && String.eqb cur "");
          [|destruct (JS.is_str prev (escapeChar o))];
          (etrans; [apply IH; lia|]; lia).
    + unfold isDelimiter at 1. unfold isDelimiter at 1 in Hocc.
      destruct (JS.is_str (Some c) (delimiter o)) eqn:Hd; simpl.
      * destruct q; simpl; (etrans; [apply IH; lia|]);
          rewrite ?length_app; simpl; lia.
      * etrans; [apply IH; lia|]. lia.
Qed.

(** X13. [parseRow] never returns more fields than the line has delimiter
    characters plus one (quoting can only merge fields), and it returns at
    least one. *)
Theorem parseRow_field_count (o : Control) (row : string) :
  1 ≤ length (parseRow o row)
  ∧ length (parseRow o row) ≤ occurrences (isDelimiter o) row + 1.
Proof.
  split.
  - destruct (parseRow_nonempty o row) as (f & fs & ->). simpl. lia.
  - rewrite parseRow_scan.
    etrans; [apply (scan_field_count o (String.length row)); lia|].
    simpl. lia.
Qed.

Lemma chars_app (fs gs : list string) : chars (fs ++ gs) = chars fs + chars gs.
Proof. apply sum_list_with_app. Qed.

Lemma scan_size (o : Control) (n : nat) :
  ∀ (rest : string) (prev : option ascii) (vs : list string) (cur : string)
    (q : bool),
    String.length rest ≤ n →
    chars (scan o prev rest vs cur q) + length (scan o prev rest vs cur q)
    ≤ chars vs + length vs + String.length cur + 1 + String.length rest.
Proof.
  induction n as [|n IH]; intros rest prev vs cur q Hn.
  - destruct rest; simpl in Hn; [|lia]. simpl.
    rewrite chars_app, length_app. unfold chars. simpl. lia.
  - destruct rest as [|c rest]; simpl in Hn.
    { simpl. rewrite chars_app, length_app. unfold chars. simpl. lia. }
    cbn [scan String.length].
    pose proof (slice_0_m1_length cur) as Hslice.
    destruct (JS.is_str (Some c) (quoteChar o)).
    + destruct (q && JS.is_str (String.get 0 rest) (delimiter o)).
      * destruct rest as [|d rest].
        -- rewrite chars_app, length_app. unfold chars. simpl. lia.
        -- etrans; [apply IH; simpl in Hn; lia|]. simpl. lia.
      * destruct (negb q && String.eqb cur "");
          [|destruct (JS.is_str prev (escapeChar o))];
          (etrans; [apply IH; lia|]);
          rewrite ?length_append_str1; lia.
    + destruct (JS.is_str (Some c) (delimiter o) && negb q);
        (etrans; [apply IH; lia|]);
        rewrite ?chars_app, ?length_app, ?length_append_str1;
        unfold chars; simpl; lia.
Qed.

(** X14. The fields [parseRow] returns never hold more text than the line:
    their code units, plus one for each boundary between two fields, number
    at most the length of the line. *)
Theorem parseRow_size (o : Control) (row : string) :
  chars (parseRow o row) + (length (parseRow o row) - 1) ≤ String.length row.
Proof.
  rewrite parseRow_scan.
  pose proof (scan_size o (String.length row) row None [] "" false
                (Nat.le_refl _)) as Hsize.
  change (chars [] + length (@nil string) + String.length "" + 1
          + String.length row) with (1 + String.length row) in Hsize.
  pose proof (scan_length o (String.length row) row None [] "" false
                (Nat.le_refl _)) as Hlen.
  simpl in Hlen. lia.
Qed.

(** ** The tokenizer: quoted fields *)

Lemma glue_empty (fs : list string) : fs ≠ [] → glue "" fs = fs.
Proof. by destruct fs. Qed.

(** Reading a stretch without quote characters outside a quoted region
    closes its complete pieces and leaves the last one open. *)
Lemma scan_unquoted_prefix (o : Control) (p rest : string) :
  ∀ (prev : option ascii) (vs : list string) (cur : string),
    occurrences (isQuote o) p = 0 →
    scan o prev (p +:+ rest) vs cur false
    = scan o (lastCode prev p) rest
        (vs ++ removelast (glue cur (pieces (isDelimiter o) p)))
        (List.last (glue cur (pieces (isDelimiter o) p)) "") false.
Proof.
  induction p as [|c p IH]; intros prev vs cur Hq.
  - simpl. autorewrite with jsstring. by rewrite app_nil_r.
  - simpl in Hq. unfold isQuote in Hq at 1.
    destruct (JS.is_str (Some c) (quoteChar o)) eqn:Hc; [lia|].
    rewrite app_cons. cbn [scan pieces lastCode]. rewrite Hc.
    fold (isDelimiter o c). rewrite andb_true_r.
    destruct (pieces_nonempty (isDelimiter o) p) as (f & fs & Hp).
    destruct (isDelimiter o c).
    + rewrite IH by lia. rewrite Hp. cbn [glue].
      autorewrite with jsstring. rewrite <- app_assoc. reflexivity.
    + rewrite IH by lia. rewrite Hp. cbn [glue].
      by autorewrite with jsstring.
Qed.

Lemma scan_quoted_run_last (o : Control) (w rest : string) :
  ∀ (prev : option ascii) (vs : list string) (cur : string),
    occurrences (isQuote o) w = 0 →
    scan o prev (w +:+ rest) vs cur true
    = scan o (lastCode prev w) rest vs (cur +:+ w) true.
Proof.
  induction w as [|c w IH]; intros prev vs cur Hq.
  - simpl. by autorewrite with jsstring.
  - simpl in Hq. unfold isQuote in Hq at 1.
    destruct (JS.is_str (Some c) (quoteChar o)) eqn:Hc; [lia|].
    rewrite app_cons. cbn [scan lastCode]. rewrite Hc, andb_false_r.
    rewrite IH by lia. by autorewrite with jsstring.
Qed.

Lemma parseRow_pieces (o : Control) (p : string) :
  occurrences (isQuote o) p = 0 →
  parseRow o p = pieces (isDelimiter o) p.
Proof.
  intros Hq. rewrite parseRow_scan, scan_unquoted by done.
  by destruct (pieces_nonempty (isDelimiter o) p) as (f & fs & ->).
Qed.

(** The state of the scan where a quote opens a field: after a stretch [p]
    without quotes that is empty or ends with a delimiter. *)
Lemma scan_to_field_start (o : Control) (p rest : string) :
  occurrences (isQuote o) p = 0 →
  last (parseRow o p) = Some "" →
  scan o None (p +:+ rest) [] "" false
  = scan o (lastCode None p) rest (removelast (parseRow o p)) "" false.
Proof.
  intros Hq Hlast. rewrite scan_unquoted_prefix by done.
  rewrite parseRow_pieces in * by done.
  destruct (pieces_nonempty (isDelimiter o) p) as (f & fs & Hp).
  rewrite glue_empty by (by rewrite Hp). simpl.
  f_equal. rewrite Hp in *. clear Hp.
  revert f Hlast. induction fs as [|g fs IH]; intros f Hlast.
  - simpl in *. by injection Hlast.
  - simpl in *. by apply IH.
Qed.

(** X15. A quoted field that ends the line keeps its delimiters. Let the
    line be a stretch [p] without quotes, empty or ending with a delimiter,
    then a quote, a text [w] without quotes, and a closing quote. The fields
    are those of [p] (without the empty last one) followed by one field: [w]
    itself, unless the code unit before the closing quote is the escape
    character, in which case that code unit is replaced by a quote (so the
    empty quoted field, under the default control strings, gives a field
    holding one quote). *)
Theorem parseRow_quoted_last_field (o : Control) (p w : string) (q : ascii)
    (Hp : occurrences (isQuote o) p = 0)
    (Hstart : last (parseRow o p) = Some "")
    (Hq : isQuote o q = true)
    (Hw : occurrences (isQuote o) w = 0) :
  parseRow o (p +:+ String q w +:+ JS.str1 q)
  = removelast (parseRow o p)
    ++ [ if JS.is_str (lastCode (Some q) w) (escapeChar o)
         then JS.slice_0_m1 w +:+ JS.str1 q
         else w ].
Proof.
  rewrite parseRow_scan, scan_to_field_start by done.
  rewrite app_cons. cbn [scan]. unfold isQuote in Hq. rewrite Hq.
  change (String.eqb "" "") with true. cbn [andb negb].
  rewrite scan_quoted_run_last by done. rewrite app_empty_l.
  unfold JS.str1 at 1. cbn [scan]. rewrite Hq.
  change (JS.is_str (String.get 0 "") (delimiter o)) with false.
  cbn [andb negb].
  by destruct (JS.is_str (lastCode (Some q) w) (escapeChar o)).
Qed.

(** X16. A quote that opens a field and has no partner swallows the rest of
    the line: with [p] as above, a quote and a text [w] without quotes, the
    fields are those of [p] followed by the single field [w], delimiters
    included. *)
Theorem parseRow_unclosed_quote (o : Control) (p w : string) (q : ascii)
    (Hp : occurrences (isQuote o) p = 0)
    (Hstart : last (parseRow o p) = Some "")
    (Hq : isQuote o q = true)
    (Hw : occurrences (isQuote o) w = 0) :
  parseRow o (p +:+ String q w) = removelast (parseRow o p) ++ [w].
Proof.
  rewrite parseRow_scan, scan_to_field_start by done.
  cbn [scan]. unfold isQuote in Hq. rewrite Hq.
  change (String.eqb "" "") with true. cbn [andb negb].
  rewrite <- (append_empty_r w) at 1.
  rewrite scan_quoted_run_last by done. by rewrite app_empty_l.
Qed.

(** ** The result of a parse: metadata *)

Section Meta.
Context {H : Host} {P : ObjectPrototype}.
Implicit Types (o : CsvParseOptions) (hs : list Header) (r : CsvParseResult).

(** The loop changes nothing of the metadata but the truncation flag. *)
Lemma rowLoop_meta o hs lines :
  ∀ i r r',
    rowLoop o hs i lines r = Ok r' →
    CsvMeta.delimiter (meta r') = CsvMeta.delimiter (meta r)
    ∧ CsvMeta.linebreak (meta r') = CsvMeta.linebreak (meta r)
    ∧ CsvMeta.fields (meta r') = CsvMeta.fields (meta r).
Proof.
  induction lines as [|l lines IH]; intros i r r' Hrun.
  - simpl in Hrun. by injection Hrun as <-.
  - rewrite rowLoop_cons in Hrun. revert Hrun.
    rowLoop_cases; intros Hrun; try done.
    + by injection Hrun as <-.
    + by apply (IH (S i)).
    + by apply (IH _ _ _ Hrun).
    + by apply (IH _ _ _ Hrun).
Qed.

Lemma detectNewline_cases (text : string) :
  detectNewline text = JS.CRLF ∨ detectNewline text = JS.LF
  ∨ detectNewline text = JS.CR.
Proof.
  unfold detectNewline.
  destruct (JS.includes text JS.CRLF); [by left|].
  destruct (JS.includes text JS.LF); [by right; left|].
  destruct (JS.includes text JS.CR); [by right; right|by right; left].
Qed.

Lemma linebreakOf_resolved o (csvData : string) :
  linebreakOf o csvData ≠ "auto".
Proof.
  unfold linebreakOf. destruct (String.eqb_spec (newline o) "auto"); [|done].
  by destruct (detectNewline_cases csvData) as [->|[->| ->]].
Qed.

(** X3. Every result a parse returns has [meta.rows] equal to the number of
    its records, [meta.delimiter] equal to the configured delimiter, and
    [meta.linebreak] equal to the separator the text was split on: the
    configured one, or the detected one under ['auto'], so never the word
    ['auto'] itself. *)
Theorem parse_meta o (csvText : string) (res : CsvParseResult)
    (Hrun : parse o csvText = Ok res) :
  CsvMeta.rows (meta res) = length (data res)
  ∧ CsvMeta.delimiter (meta res) = delimiter (control o)
  ∧ CsvMeta.linebreak (meta res) = linebreakOf o csvText
  ∧ CsvMeta.linebreak (meta res) ≠ "auto".
Proof.
  assert (Hfirst : CsvMeta.rows (meta res) = length (data res)
                   ∧ CsvMeta.delimiter (meta res) = delimiter (control o)
                   ∧ CsvMeta.linebreak (meta res) = linebreakOf o csvText).
  { apply processData_Ok_inv in Hrun
      as [(_ & _ & ->)|(hs & lines & r0 & r' & Hentry & Hloop & ->)];
      [done|].
    destruct (rowLoop_meta _ _ _ _ _ _ Hloop) as (Hd & Hl & _).
    simpl. rewrite Hd, Hl. by destruct Hentry. }
  destruct Hfirst as (Hrows & Hdel & Hlb). repeat split; try done.
  rewrite Hlb. apply linebreakOf_resolved.
Qed.

Lemma mapRes_length {A B} (f : A → res B) (xs : list A) (ys : list B) :
  mapRes f xs = Ok ys → length ys = length xs.
Proof.
  revert ys. induction xs as [|x xs IH]; intros ys Hrun.
  - by injection Hrun as <-.
  - cbn [mapRes] in Hrun. apply bind_Ok_inv in Hrun as (y & _ & Hrun).
    apply bind_Ok_inv in Hrun as (ys' & Hys & Hrun). injection Hrun as <-.
    simpl. by rewrite (IH ys').
Qed.

(** X4. Without headers a returned result has no field names. Under headers
    the field names are the fields of the first line, as tokenized without
    trimming it and whether or not it is blank or a comment, each passed
    through [transformHeader] and then renamed: a name with a non-empty entry
    of its own in [renameHeaders] becomes that entry and a name with an empty
    entry is kept; a name with no entry is kept too, unless it names a member
    that [renameHeaders] inherits from [Object.prototype], in which case the
    field is that member and no string. There are as many names as raw
    fields of the first line. *)
Theorem parse_fields o (csvText : string) (res : CsvParseResult)
    (Hrun : parse o csvText = Ok res) :
  (header o = false → CsvMeta.fields (meta res) = None)
  ∧ (∀ line0 lines',
       header o = true →
       JS.split csvText (linebreakOf o csvText) = line0 :: lines' →
       ∃ names,
         mapRes (transformHeader o) (parseRow (control o) line0) = Ok names
         ∧ CsvMeta.fields (meta res) = Some (rename o <$> names)
         ∧ length names = length (parseRow (control o) line0))
  ∧ (∀ h, rename o h
          = match renameHeaders o !! h with
            | Some to => HName (if decide (to = "") then h else to)
            | None =>
                match inherited h with
                | Some m => HMember m
                | None => HName h
                end
            end).
Proof.
  split; [|split].
  - intros Hh. apply processData_Ok_inv in Hrun
      as [(Hh' & _)|(hs & lines & r0 & r' & Hentry & Hloop & ->)];
      [congruence|].
    destruct (rowLoop_meta _ _ _ _ _ _ Hloop) as (_ & _ & Hf).
    simpl. rewrite Hf. destruct Hentry; [done|congruence].
  - intros line0 lines' Hh Hsplit. apply processData_Ok_inv in Hrun
      as [(_ & Hnil & _)|(hs & lines & r0 & r' & Hentry & Hloop & ->)];
      [congruence|].
    destruct (rowLoop_meta _ _ _ _ _ _ Hloop) as (_ & _ & Hf).
    destruct Hentry as [Hplain|line0' lines'' names _ Hsplit' Hmap];
      [congruence|].
    rewrite Hsplit in Hsplit'. injection Hsplit' as <- <-.
    exists names. split; [done|]. split; [by simpl; rewrite Hf|].
    by apply mapRes_length in Hmap.
  - intros h. unfold rename, getProperty.
    destruct (renameHeaders o !! h) as [to|].
    + destruct (String.eqb_spec to ""); by case_decide.
    + by destruct (inherited h).
Qed.

End Meta.

(** ** The result of a parse: throws and recorded errors *)

Section Errors.
Context {H : Host} {P : ObjectPrototype}.
Implicit Types (o : CsvParseOptions) (hs : list Header) (r : CsvParseResult).

Lemma rowLoop_skip_total o hs lines :
  skipInvalidLines o = true →
  ∀ i r, ∃ r', rowLoop o hs i lines r = Ok r'.
Proof.
  intros Hskip. induction lines as [|l lines IH]; intros i r; [by eexists|].
  rewrite rowLoop_cons, Hskip.
  destruct (previewReached o r); [by eexists|].
  destruct (skipped o l); [by apply IH|].
  destruct (materialize o hs (JS.trim l)); by apply IH.
Qed.

Lemma processData_header_throw o csvData line0 lines' e :
  header o = true →
  JS.split csvData (linebreakOf o csvData) = line0 :: lines' →
  mapRes (transformHeader o) (parseRow (control o) line0) = Throw e →
  processData o csvData = Throw e.
Proof.
  intros Hh Hsplit Hmap. unfold processData. rewrite Hh.
  cbn [meta initialResult CsvMeta.linebreak]. by rewrite Hsplit, Hmap.
Qed.

(** X5. The header transform runs outside the [try] block. With
    [skipInvalidLines] a parse throws exactly when headers are enabled and
    [transformHeader] throws on a field of the first line, and it then throws
    that value; every other failure is recorded and the parse returns. *)
Theorem parse_throws_only_from_header o (csvText : string) (e : thrown)
    (Hskip : skipInvalidLines o = true) :
  parse o csvText = Throw e
  ↔ header o = true
    ∧ ∃ line0 lines',
        JS.split csvText (linebreakOf o csvText) = line0 :: lines'
        ∧ mapRes (transformHeader o) (parseRow (control o) line0) = Throw e.
Proof.
  unfold parse. split.
  - intros Hrun. destruct (header o) eqn:Hh.
    + split; [done|].
      destruct (JS.split csvText (linebreakOf o csvText)) as [|line0 lines']
        eqn:Hsplit.
      { by rewrite processData_no_lines in Hrun. }
      exists line0, lines'. split; [done|].
      destruct (mapRes (transformHeader o) (parseRow (control o) line0))
        as [names|e'] eqn:Hmap.
      * rewrite (processData_loop _ _ _ _ _
                   (entry_header o csvText _ _ _ Hh Hsplit Hmap)) in Hrun.
        destruct (rowLoop_skip_total o (rename o <$> names) lines' Hskip 0
                    (set_fields (rename o <$> names)
                       (initialResult o csvText))) as [r' Hr'].
        by rewrite Hr' in Hrun.
      * rewrite (processData_header_throw _ _ _ _ _ Hh Hsplit Hmap) in Hrun.
        by injection Hrun as ->.
    + rewrite (processData_loop _ _ _ _ _ (entry_plain o csvText Hh)) in Hrun.
      destruct (rowLoop_skip_total o [] (JS.split csvText
                  (linebreakOf o csvText)) Hskip 0 (initialResult o csvText))
        as [r' Hr'].
      by rewrite Hr' in Hrun.
  - intros (Hh & line0 & lines' & Hsplit & Hmap).
    by apply (processData_header_throw _ _ line0 lines').
Qed.



(** Every line read is skipped, or gives a record, or gives an error. *)
Lemma rowLoop_accounting o hs lines :
  ∀ i r r',
    rowLoop o hs i lines r = Ok r' →
    truncatedOf r = false → truncatedOf r' = false →
    length (data r') + length (errors r')
    = length (data r) + length (errors r)
      + length (List.filter (kept o) lines).
Proof.
  induction lines as [|l lines IH]; intros i r r' Hrun Hr Hr'.
  - simpl in Hrun. injection Hrun as <-. simpl. lia.
  - rewrite rowLoop_cons in Hrun. revert Hrun. cbn [List.filter].
    unfold kept at 1.
    rowLoop_cases; intros Hrun; try done.
    + injection Hrun as <-. done.
    + rewrite (IH _ _ _ Hrun) by done. simpl. lia.
    + rewrite (IH _ _ _ Hrun) by done. simpl. rewrite length_app. simpl. lia.
    + rewrite (IH _ _ _ Hrun) by done. simpl. rewrite length_app. simpl. lia.
Qed.

(** X7. In a result that was not cut by the preview, the records and the
    errors together are as many as the data lines that are neither blank
    (under [skipEmptyLines]) nor comments: each such line gave exactly one
    record or exactly one error, and the other lines gave nothing. *)
Theorem parse_accounting o (csvText : string) hs (lines : list string) r0
    (res : CsvParseResult)
    (Hentry : loopEntry o csvText hs lines r0)
    (Hrun : parse o csvText = Ok res)
    (Hfull : truncatedOf res = false) :
  length (data res) + length (errors res)
  = length (List.filter (kept o) lines).
Proof.
  unfold parse in Hrun. rewrite (processData_loop _ _ _ _ _ Hentry) in Hrun.
  apply bind_Ok_inv in Hrun as (r' & Hloop & Hres). injection Hres as <-.
  destruct (loopEntry_fresh _ _ _ _ _ Hentry) as (Hr0 & Hd0 & He0).
  simpl. rewrite (rowLoop_accounting _ _ _ _ _ _ Hloop Hr0 Hfull).
  rewrite Hd0, He0. simpl. lia.
Qed.

End Errors.

(** ** The result of a parse: records *)

Section Records.
Context {H : Host} {P : ObjectPrototype}.
Implicit Types (o : CsvParseOptions) (hs : list Header) (r : CsvParseResult).





Lemma forEach_plain o hs (row : list string) :
  header o = false → truthy_dt (dynamicTyping o) = false →
  (∀ v f, transform o v f = Ok v) →
  ∀ idx l,
    forEach o hs idx row (RowArray l) = Ok (RowArray (l ++ (VString <$> row))).
Proof.
  intros Hh Hdt Ht. induction row as [|value row IH]; intros idx l.
  - simpl. by rewrite app_nil_r.
  - assert (Hfv : fieldValue o (FIndex idx) value = Ok (VString value)).
    { unfold fieldValue, convertType. cbn [parserFor]. rewrite Hdt.
      simpl. apply Ht. }
    cbn [forEach]. rewrite fieldOf_plain, Hfv by done.
    cbn [mbind res_mbind res_bind store]. rewrite IH.
    by rewrite <- app_assoc.
Qed.

Lemma rowLoop_plain o hs (lines : list string) :
  header o = false → truthy_dt (dynamicTyping o) = false →
  (∀ v f, transform o v f = Ok v) → preview o = 0%Z →
  ∀ i r,
    rowLoop o hs i lines r
    = Ok {| data := data r
                    ++ ((λ l, RowArray
                                (VString <$> parseRow (control o) (JS.trim l)))
                          <$> List.filter (kept o) lines);
            errors := errors r; meta := meta r |}.
Proof.
  intros Hh Hdt Ht Hp. induction lines as [|l lines IH]; intros i r.
  - simpl. rewrite app_nil_r. by destruct r.
  - rewrite rowLoop_cons. unfold previewReached. rewrite Hp. simpl.
    unfold kept at 1. destruct (skipped o l); simpl; [by apply IH|].
    unfold materialize. rewrite Hh, forEach_plain by done. simpl.
    rewrite IH. simpl. by rewrite <- app_assoc.
Qed.

(** X11. Without headers, without dynamic typing, with the identity as
    value transform and no preview, a parse returns exactly the tokenized
    data lines: one array of strings for every line that is neither blank
    (under [skipEmptyLines]) nor a comment, holding the raw fields of the
    trimmed line, in the order of the text, and no error. *)
Theorem parse_plain o (csvText : string)
    (Hh : header o = false)
    (Hdt : truthy_dt (dynamicTyping o) = false)
    (Ht : ∀ v f, transform o v f = Ok v)
    (Hp : preview o = 0%Z) :
  let rows :=
    (λ l, RowArray (VString <$> parseRow (control o) (JS.trim l)))
      <$> List.filter (kept o) (JS.split csvText (linebreakOf o csvText)) in
  parse o csvText
  = Ok {| data := rows; errors := [];
          meta := {| CsvMeta.delimiter := delimiter (control o);
                     CsvMeta.linebreak := linebreakOf o csvText;
                     CsvMeta.truncated := false;
                     CsvMeta.fields := None;
                     CsvMeta.rows := length rows |} |}.
Proof.
  intros rows. unfold parse.
  rewrite (processData_loop _ _ _ _ _ (entry_plain o csvText Hh)).
  by rewrite rowLoop_plain.
Qed.

End Records.

(** ** The preview and the lines that count *)

Section Preview.
Context {H : Host} {P : ObjectPrototype}.
Implicit Types (o : CsvParseOptions) (hs : list Header) (r : CsvParseResult).

Lemma forEach_with_preview o (p : Z) hs (row : list string) :
  ∀ idx pr,
    forEach (with_preview p o) hs idx row pr = forEach o hs idx row pr.
Proof.
  induction row as [|value row IH]; intros idx pr; [done|].
  cbn [forEach].
  change (fieldOf (with_preview p o) hs idx) with (fieldOf o hs idx).
  change (fieldValue (with_preview p o) (fieldOf o hs idx) value)
    with (fieldValue o (fieldOf o hs idx) value).
  destruct (fieldValue o (fieldOf o hs idx) value); [apply IH|done].
Qed.

Lemma materialize_with_preview o (p : Z) hs (line : string) :
  materialize (with_preview p o) hs line = materialize o hs line.
Proof. unfold materialize. apply forEach_with_preview. Qed.

(** The loop only appends. *)
Lemma rowLoop_appends o hs lines :
  ∀ i r r',
    rowLoop o hs i lines r = Ok r' →
    (∃ more, data r' = data r ++ more)
    ∧ (∃ more, errors r' = errors r ++ more).
Proof.
  induction lines as [|l lines IH]; intros i r r' Hrun.
  - simpl in Hrun. injection Hrun as <-.
    split; exists []; by rewrite app_nil_r.
  - rewrite rowLoop_cons in Hrun. revert Hrun.
    rowLoop_cases; intros Hrun; try done.
    + injection Hrun as <-. split; exists []; by rewrite app_nil_r.
    + by apply (IH (S i)).
    + destruct (IH _ _ _ Hrun) as [[more Hd] He]. split; [|done].
      exists (pr :: more). rewrite Hd. simpl. by rewrite <- app_assoc.
    + destruct (IH _ _ _ Hrun) as [Hd [more He]]. split; [done|].
      eexists. rewrite He. simpl. by rewrite <- app_assoc.
Qed.

Lemma rowLoop_preview_prefix o (p : Z) hs lines :
  (0 < p)%Z →
  ∀ i r full,
    rowLoop (with_preview 0 o) hs i lines r = Ok full →
    length (data r) ≤ Z.to_nat p →
    ∃ r', rowLoop (with_preview p o) hs i lines r = Ok r'
          ∧ data r' = take (Z.to_nat p) (data full)
          ∧ ∃ more, errors full = errors r' ++ more.
Proof.
  intros Hpos. induction lines as [|l lines IH]; intros i r full Hrun Hlen.
  - simpl in Hrun. injection Hrun as <-. exists r. split; [done|].
    split; [by rewrite take_ge|]. exists []. by rewrite app_nil_r.
  - destruct (previewReached (with_preview p o) r) eqn:Hreach.
    + rewrite rowLoop_preview by done.
      destruct (rowLoop_appends _ _ _ _ _ _ Hrun) as [[md Hd] [me He]].
      eexists. split; [reflexivity|]. simpl.
      unfold previewReached, truthy_num in Hreach. simpl in Hreach.
      apply andb_true_iff in Hreach as [_ Hreach%Z.leb_le].
      split; [|by exists me].
      rewrite Hd, take_app_le by lia. symmetry. apply take_ge. lia.
    + assert (Hlt : length (data r) < Z.to_nat p).
      { unfold previewReached, truthy_num in Hreach. simpl in Hreach.
        apply andb_false_iff in Hreach as [Hreach|Hreach].
        - apply negb_false_iff, Z.eqb_eq in Hreach. lia.
        - apply Z.leb_gt in Hreach. lia. }
      rewrite rowLoop_cons in Hrun. rewrite rowLoop_cons, Hreach.
      change (previewReached (with_preview 0 o) r) with false in Hrun.
      change (skipped (with_preview 0 o) l) with (skipped o l) in Hrun.
      change (skipped (with_preview p o) l) with (skipped o l).
      change (skipInvalidLines (with_preview 0 o))
        with (skipInvalidLines o) in Hrun.
      change (skipInvalidLines (with_preview p o)) with (skipInvalidLines o).
      rewrite materialize_with_preview in Hrun.
      rewrite materialize_with_preview.
      destruct (skipped o l); [by apply IH|].
      destruct (materialize o hs (JS.trim l)) as [pr|e].
      * apply IH; [done|]. simpl. rewrite length_app. simpl. lia.
      * destruct (skipInvalidLines o); [|done]. by apply IH.
Qed.

(** X12. The preview only cuts. If a parse without preview returns, the
    parse of the same text with a positive preview [p] and otherwise the
    same options returns too; its records are the first [p] records of the
    full parse and its errors are an initial part of the full error list. *)
Theorem parse_preview_is_prefix o (csvText : string) (p : Z)
    (full : CsvParseResult)
    (Hpos : (0 < p)%Z)
    (Hfull : parse (with_preview 0 o) csvText = Ok full) :
  ∃ res, parse (with_preview p o) csvText = Ok res
         ∧ data res = take (Z.to_nat p) (data full)
         ∧ ∃ more, errors full = errors res ++ more.
Proof.
  apply processData_Ok_inv in Hfull
    as [(Hh & Hnil & ->)|(hs & lines & r0 & r' & Hentry & Hloop & ->)].
  - exists (push_error noData (initialResult (with_preview p o) csvText)).
    split; [|split; [simpl; by rewrite take_nil|]].
    + unfold parse. by apply processData_no_lines.
    + exists []. by rewrite app_nil_r.
  - destruct (loopEntry_fresh _ _ _ _ _ Hentry) as (_ & Hd0 & _).
    destruct (rowLoop_preview_prefix o p hs lines Hpos 0 r0 r' Hloop)
      as (r1 & Hr1 & Hd & He); [rewrite Hd0; simpl; lia|].
    exists (set_rows (length (data r1)) r1). split; [|by split].
    unfold parse.
    destruct Hentry as [Hh|line0 lines' names Hh Hsplit Hmap].
    + rewrite (processData_loop _ _ _ _ _
                 (entry_plain (with_preview p o) csvText Hh)).
      change (rowLoop (with_preview p o) [] 0
                (JS.split csvText (linebreakOf (with_preview 0 o) csvText))
                (initialResult (with_preview 0 o) csvText) = Ok r1) in Hr1.
      change (linebreakOf (with_preview 0 o) csvText)
        with (linebreakOf (with_preview p o) csvText) in Hr1.
      change (initialResult (with_preview 0 o) csvText)
        with (initialResult (with_preview p o) csvText) in Hr1.
      by rewrite Hr1.
    + rewrite (processData_loop _ _ _ _ _
                 (entry_header (with_preview p o) csvText line0 lines' names
                    Hh Hsplit Hmap)).
      change (rename (with_preview 0 o)) with (rename (with_preview p o))
        in Hr1.
      change (initialResult (with_preview 0 o) csvText)
        with (initialResult (with_preview p o) csvText) in Hr1.
      by rewrite Hr1.
Qed.

Lemma rowLoop_reached o hs lines :
  ∀ i r,
    previewReached o r = true →
    ∃ r', rowLoop o hs i lines r = Ok r'
          ∧ data r' = data r ∧ errors r' = errors r.
Proof.
  intros i r Hreach. destruct lines as [|l lines]; [by exists r|].
  rewrite rowLoop_preview by done. by eexists.
Qed.

Lemma previewReached_data o r1 r2 :
  data r1 = data r2 → previewReached o r1 = previewReached o r2.
Proof. unfold previewReached. by intros ->. Qed.

Lemma rowLoop_sameRows o hs (n : nat) :
  ∀ (lines1 lines2 : list string) i1 i2 r1 r2,
    length lines1 + length lines2 ≤ n →
    JS.trim <$> List.filter (kept o) lines1
    = JS.trim <$> List.filter (kept o) lines2 →
    data r1 = data r2 →
    CsvError.message <$> errors r1 = CsvError.message <$> errors r2 →
    sameRows (rowLoop o hs i1 lines1 r1) (rowLoop o hs i2 lines2 r2).
Proof.
  induction n as [|n IH]; intros lines1 lines2 i1 i2 r1 r2 Hn Hlines Hd He.
  { destruct lines1, lines2; simpl in Hn; try lia. by simpl. }
  destruct (previewReached o r1) eqn:Hreach1.
  { pose proof Hreach1 as Hreach2.
    rewrite (previewReached_data o r1 r2 Hd) in Hreach2.
    destruct (rowLoop_reached o hs lines1 i1 r1 Hreach1)
      as (r1' & -> & Hd1 & He1).
    destruct (rowLoop_reached o hs lines2 i2 r2 Hreach2)
      as (r2' & -> & Hd2 & He2).
    simpl. by rewrite Hd1, Hd2, He1, He2. }
  pose proof Hreach1 as Hreach2.
  rewrite (previewReached_data o r1 r2 Hd) in Hreach2.
  destruct lines1 as [|l1 lines1].
  - destruct lines2 as [|l2 lines2]; [by simpl|].
    simpl in Hlines. unfold kept at 1 in Hlines.
    destruct (skipped o l2) eqn:Hs2; [|done].
    rewrite (rowLoop_skipped o hs i2 l2) by done.
    apply IH; [simpl in *; lia|done..].
  - simpl in Hlines. unfold kept at 1 in Hlines.
    destruct (skipped o l1) eqn:Hs1; simpl in Hlines.
    { rewrite (rowLoop_skipped o hs i1 l1) by done.
      apply IH; [simpl in *; lia|done..]. }
    destruct lines2 as [|l2 lines2]; [done|].
    simpl in Hlines. unfold kept at 2 in Hlines.
    destruct (skipped o l2) eqn:Hs2; simpl in Hlines.
    { rewrite (rowLoop_skipped o hs i2 l2) by done.
      apply IH; [simpl in *; lia| |done..].
      simpl. unfold kept at 1. by rewrite Hs1. }
    injection Hlines as Htrim Hlines.
    rewrite !rowLoop_cons, Hreach1, Hreach2, Hs1, Hs2, Htrim.
    destruct (materialize o hs (JS.trim l2)) as [pr|e].
    + apply IH; [simpl in *; lia|done| |done]. simpl. by rewrite Hd.
    + destruct (skipInvalidLines o); [|done].
      apply IH; [simpl in *; lia|done..|].
      simpl. rewrite !fmap_app. by rewrite He.
Qed.

(** X8. Only the trimmed text of the lines that are neither blank (under
    [skipEmptyLines]) nor comments reaches the records. Two texts read with
    the same options and header names, whose data lines agree once the
    skipped lines are removed and the others trimmed, give the same outcome:
    the same thrown value, or the same records and the same error messages
    in the same order. *)
Theorem parse_ignores_skipped_and_spaces o (text1 text2 : string) hs
    (lines1 lines2 : list string) r1 r2
    (Hentry1 : loopEntry o text1 hs lines1 r1)
    (Hentry2 : loopEntry o text2 hs lines2 r2)
    (Hlines : JS.trim <$> List.filter (kept o) lines1
              = JS.trim <$> List.filter (kept o) lines2) :
  sameRows (parse o text1) (parse o text2).
Proof.
  unfold parse.
  rewrite (processData_loop _ _ _ _ _ Hentry1).
  rewrite (processData_loop _ _ _ _ _ Hentry2).
  destruct (loopEntry_fresh _ _ _ _ _ Hentry1) as (_ & Hd1 & He1).
  destruct (loopEntry_fresh _ _ _ _ _ Hentry2) as (_ & Hd2 & He2).
  pose proof (rowLoop_sameRows o hs _ lines1 lines2 0 0 r1 r2
                (Nat.le_refl _) Hlines) as Hsame.
  rewrite Hd1, Hd2, He1, He2 in Hsame. specialize (Hsame eq_refl eq_refl).
  destruct (rowLoop o hs 0 lines1 r1), (rowLoop o hs 0 lines2 r2);
    simpl in *; done.
Qed.

End Preview.

(** ** Lines *)

Lemma sliceFrom_empty (n : nat) : sliceFrom n "" = "".
Proof. by destruct n. Qed.

Lemma prefix_sliceFrom (p s : string) :
  String.prefix p s = true → p +:+ sliceFrom (String.length p) s = s.
Proof.
  revert s. induction p as [|c p IH]; intros s Hp; [done|].
  destruct s as [|d s]; [done|]. simpl in Hp.
  destruct (Ascii.ascii_dec c d) as [->|]; [|done].
  rewrite app_cons. simpl. by rewrite IH.
Qed.

Lemma concat_cons_pieces (sep x : string) (xs : list string) :
  xs ≠ [] → String.concat sep (x :: xs) = x +:+ sep +:+ String.concat sep xs.
Proof. by destruct xs. Qed.

Lemma split_go_concat (sep : string) (s : string) :
  sep ≠ "" →
  ∀ skip cur,
    String.concat sep (JS.split_go sep skip cur s) = cur +:+ sliceFrom skip s.
Proof.
  intros Hsep. induction s as [|c s IH]; intros skip cur.
  - simpl. by rewrite sliceFrom_empty, append_empty_r.
  - cbn [JS.split_go]. destruct skip as [|k]; [|by rewrite IH].
    destruct (String.prefix sep (String c s)) eqn:Hp.
    + rewrite concat_cons_pieces.
      2:{ destruct (split_go_nonempty sep s (String.length sep - 1) "")
            as (l & ls & ->). done. }
      rewrite IH, app_empty_l. simpl. f_equal.
      destruct sep as [|d sep]; [done|].
      apply prefix_sliceFrom in Hp. simpl in Hp. rewrite app_cons in Hp.
      injection Hp as -> Hp. simpl. rewrite Nat.sub_0_r, app_cons.
      by rewrite Hp.
    + rewrite IH. simpl. by rewrite append_assoc_str1.
Qed.

Lemma code_units_concat (s : string) : String.concat "" (JS.code_units s) = s.
Proof.
  induction s as [|c s IH]; [done|]. cbn [JS.code_units].
  destruct s as [|d s]; [done|].
  rewrite concat_cons_pieces by done. by rewrite IH.
Qed.

(** X2. Splitting loses nothing: for every text and separator the lines
    given by [split], joined again by the separator, are the text; in
    particular the lines [processData] reads, joined by [meta.linebreak],
    give back the text it was given. *)
Theorem split_join (s sep : string) : String.concat sep (JS.split s sep) = s.
Proof.
  unfold JS.split. destruct sep as [|d sep]; [apply code_units_concat|].
  by rewrite split_go_concat.
Qed.

Lemma prefix_app_l (p t s : string) :
  String.prefix (p +:+ t) s = true → String.prefix p s = true.
Proof.
  revert s. induction p as [|a p IH]; intros s; [by destruct s|].
  rewrite app_cons. destruct s as [|b s]; [done|]. simpl.
  destruct (Ascii.ascii_dec a b); [apply IH|done].
Qed.

Lemma includes_CRLF_CR (s : string) :
  JS.includes s JS.CRLF = true → JS.includes s JS.CR = true.
Proof.
  unfold JS.CRLF.
  induction s as [|c s IH]; cbn [JS.includes];
    intros Hinc; apply orb_true_iff in Hinc as [Hp|Hs]; apply orb_true_iff.
  - left. by apply prefix_app_l in Hp.
  - done.
  - left. by apply prefix_app_l in Hp.
  - right. by apply IH.
Qed.

Lemma split_go_no_separator (d : ascii) (s : string) :
  JS.includes s (JS.str1 d) = false →
  ∀ cur, JS.split_go (JS.str1 d) 0 cur s = [cur +:+ s].
Proof.
  induction s as [|c s IH]; intros Hinc cur.
  - simpl. by rewrite append_empty_r.
  - cbn [JS.includes] in Hinc. apply orb_false_iff in Hinc as [Hp Hinc].
    cbn [JS.split_go]. rewrite Hp, IH by done.
    by rewrite append_assoc_str1.
Qed.

Section SingleLine.
Context {H : Host} {P : ObjectPrototype}.

(** X1. A text that holds neither a line feed nor a carriage return is one
    line under ['auto']: the detected separator is the line feed and the
    split gives the text itself. Under headers that line is the header row,
    so the parse returns no record and no error, with the field names read
    from the whole text. *)
Theorem parse_single_line (o : CsvParseOptions) (csvText : string)
    (Hauto : newline o = "auto")
    (Hlf : JS.includes csvText JS.LF = false)
    (Hcr : JS.includes csvText JS.CR = false) :
  detectNewline csvText = JS.LF
  ∧ JS.split csvText (linebreakOf o csvText) = [csvText]
  ∧ (header o = true →
     ∀ names,
       mapRes (transformHeader o) (parseRow (control o) csvText) = Ok names →
       parse o csvText
       = Ok {| data := []; errors := [];
               meta := {| CsvMeta.delimiter := delimiter (control o);
                          CsvMeta.linebreak := JS.LF;
                          CsvMeta.truncated := false;
                          CsvMeta.fields := Some (rename o <$> names);
                          CsvMeta.rows := 0 |} |}).
Proof.
  assert (Hdet : detectNewline csvText = JS.LF).
  { unfold detectNewline. rewrite Hlf, Hcr.
    destruct (JS.includes csvText JS.CRLF) eqn:Hcrlf; [|done].
    apply includes_CRLF_CR in Hcrlf. congruence. }
  assert (Hlb : linebreakOf o csvText = JS.LF).
  { unfold linebreakOf. by rewrite Hauto, Hdet. }
  assert (Hsplit : JS.split csvText (linebreakOf o csvText) = [csvText]).
  { rewrite Hlb. unfold JS.split, JS.LF. simpl.
    by rewrite (split_go_no_separator "010"%char csvText Hlf ""). }
  split; [done|]. split; [done|].
  intros Hh names Hmap. unfold parse.
  rewrite (processData_loop _ _ _ _ _
             (entry_header o csvText csvText [] names Hh Hsplit Hmap)).
  cbn [rowLoop]. unfold finish, set_rows, set_fields, initialResult.
  cbn [mbind res_mbind res_bind data errors meta length CsvMeta.delimiter
       CsvMeta.linebreak CsvMeta.truncated CsvMeta.fields CsvMeta.rows].
  by rewrite Hlb.
Qed.

End SingleLine.

(** ** The default conversion under headers *)

Section DefaultHeaders.
Context {H : Host} {P : ObjectPrototype}.
Implicit Types (o : CsvParseOptions) (hs : list Header) (r : CsvParseResult).

Lemma forEach_default_header o hs (row : list string) :
  header o = true → parsers o = ∅ →
  truthy_dt (dynamicTyping o) = false →
  (∀ v f, transform o v f = Ok v) →
  Forall (λ h, inherited (propKey (Some h)) = None) hs →
  ∀ idx (m : gmap string Value),
    forEach o hs idx row (RowObject m)
    = Ok (RowObject (list_to_map (reverse (fieldPairs hs idx row)) ∪ m)).
Proof.
  intros Hh Hp Hdt Ht Hhs. induction row as [|raw row IH]; intros idx m.
  - simpl. by rewrite (left_id_L ∅ (∪)).
  - assert (Hk : inherited (propKey (hs !! idx)) = None)
      by by apply plain_lookup.
    assert (Hfv : fieldValue o (FHeader (hs !! idx)) raw = Ok (VString raw)).
    { rewrite fieldValue_default by done. unfold convertType. by rewrite Hdt. }
    cbn [forEach]. rewrite fieldOf_header, Hfv by done.
    cbn [mbind res_mbind res_bind store fieldPairs]. unfold assign.
    destruct (String.eqb_spec (propKey (hs !! idx)) "__proto__") as [Heq|_];
      [rewrite Heq in Hk; vm_compute in Hk; discriminate Hk|].
    rewrite IH.
    rewrite reverse_cons, list_to_map_app. simpl.
    rewrite insert_empty, <- (assoc_L (∪)).
    by rewrite insert_union_singleton_l.
Qed.

Lemma rowLoop_default_header o hs (lines : list string) :
  header o = true → parsers o = ∅ →
  truthy_dt (dynamicTyping o) = false →
  (∀ v f, transform o v f = Ok v) → preview o = 0%Z →
  Forall (λ h, inherited (propKey (Some h)) = None) hs →
  ∀ i r,
    rowLoop o hs i lines r
    = Ok {| data := data r
                    ++ ((λ l, RowObject
                                (objectOf hs
                                   (parseRow (control o) (JS.trim l))))
                          <$> List.filter (kept o) lines);
            errors := errors r; meta := meta r |}.
Proof.
  intros Hh Hpa Hdt Ht Hp Hhs. induction lines as [|l lines IH]; intros i r.
  - simpl. rewrite app_nil_r. by destruct r.
  - rewrite rowLoop_cons. unfold previewReached. rewrite Hp. simpl.
    unfold kept at 1. destruct (skipped o l); simpl; [by apply IH|].
    unfold materialize. rewrite Hh, forEach_default_header by done.
    rewrite (right_id_L ∅ (∪)). rewrite IH. simpl. by rewrite <- app_assoc.
Qed.

(** X17. Under headers, with no parser override, no dynamic typing, the
    identity as value transform and no preview, a parse whose header
    transform completes, and none of whose field names is the name of a
    member of [Object.prototype] (which [parsers] would inherit as a
    parser), returns exactly one object for every data line that is neither
    blank (under [skipEmptyLines]) nor a comment, in the order of the text,
    and no error. The object pairs each raw field of the trimmed line, as a
    string, with the key of the field at its position (the name, or the text
    of a field that is a member), or with the key ["undefined"] past the
    last field; of two fields with the same key the later one is kept. *)
Theorem parse_default_headers o (csvText line0 : string)
    (lines' names : list string)
    (Hh : header o = true) (Hpa : parsers o = ∅)
    (Hdt : truthy_dt (dynamicTyping o) = false)
    (Ht : ∀ v f, transform o v f = Ok v)
    (Hp : preview o = 0%Z)
    (Hsplit : JS.split csvText (linebreakOf o csvText) = line0 :: lines')
    (Hnames : mapRes (transformHeader o) (parseRow (control o) line0)
              = Ok names)
    (Hplain : ∀ s, HName s ∈ rename o <$> names → inherited s = None) :
  let fields := rename o <$> names in
  let rows :=
    (λ l, RowObject (objectOf fields (parseRow (control o) (JS.trim l))))
      <$> List.filter (kept o) lines' in
  parse o csvText
  = Ok {| data := rows; errors := [];
          meta := {| CsvMeta.delimiter := delimiter (control o);
                     CsvMeta.linebreak := linebreakOf o csvText;
                     CsvMeta.truncated := false;
                     CsvMeta.fields := Some fields;
                     CsvMeta.rows := length rows |} |}.
Proof.
  intros fields rows. unfold parse.
  rewrite (processData_loop _ _ _ _ _
             (entry_header o csvText line0 lines' names Hh Hsplit Hnames)).
  rewrite rowLoop_default_header; [done..|].
  apply Forall_forall. intros h Hin. apply propKey_fresh.
  intros s Hs. injection Hs as ->. by apply Hplain.
Qed.

(** X9. A negative preview stops the loop at its first line: when there is
    a line to read the parse returns no record and no error, with
    [truncated] set. *)
Theorem parse_negative_preview o (csvText : string) hs (l : string)
    (lines : list string) r0
    (Hneg : (preview o < 0)%Z)
    (Hentry : loopEntry o csvText hs (l :: lines) r0) :
  ∃ res, parse o csvText = Ok res
         ∧ data res = [] ∧ errors res = [] ∧ truncatedOf res = true.
Proof.
  unfold parse. rewrite (processData_loop _ _ _ _ _ Hentry).
  destruct (loopEntry_fresh _ _ _ _ _ Hentry) as (_ & Hd & He).
  rewrite rowLoop_preview.
  - eexists. split; [reflexivity|]. by simpl.
  - unfold previewReached, truthy_num. apply andb_true_iff. split.
    + apply negb_true_iff, Z.eqb_neq. lia.
    + apply Z.leb_le. lia.
Qed.

End DefaultHeaders.

(** ** Closed instances of the further properties *)

Lemma parseRow_quoted_last_field_witness :
  parseRow defaultControl
    ("John," +:+ JS.DQ +:+ "Software Engineer, Senior" +:+ JS.DQ)
  = ["John"; "Software Engineer, Senior"].
Proof.
  etrans;
    [exact (parseRow_quoted_last_field defaultControl "John,"
              "Software Engineer, Senior" "034"%char
              eq_refl eq_refl eq_refl eq_refl)|].
  vm_compute. reflexivity.
Defined.

Lemma parseRow_unclosed_quote_witness :
  parseRow defaultControl (JS.DQ +:+ "Unclosed quote,40,test@example.com")
  = ["Unclosed quote,40,test@example.com"].
Proof.
  etrans;
    [exact (parseRow_unclosed_quote defaultControl ""
              "Unclosed quote,40,test@example.com" "034"%char
              eq_refl eq_refl eq_refl eq_refl)|].
  vm_compute. reflexivity.
Defined.

Lemma skippingOptions_entry :
  loopEntry skippingOptions agesText [HName "name"; HName "age"]
    ["John,30"; "Mary,invalid"; "Bob,30"; "Ann,25"]
    (set_fields [HName "name"; HName "age"]
       (initialResult skippingOptions agesText)).
Proof.
  refine (entry_header skippingOptions agesText "name,age"
            ["John,30"; "Mary,invalid"; "Bob,30"; "Ann,25"] ["name"; "age"]
            _ _ _); vm_compute; reflexivity.
Defined.

Lemma skippingOptions_run :
  ∃ res, parse skippingOptions agesText = Ok res.
Proof.
  set (run := parse skippingOptions agesText).
  assert (Hs : (r ← run; Ok tt) = Ok tt) by (vm_compute; reflexivity).
  clearbody run. destruct run as [res|e]; [by exists res|discriminate Hs].
Defined.

Lemma parse_meta_witness :
  ∃ res, parse skippingOptions agesText = Ok res
         ∧ CsvMeta.rows (meta res) = length (data res).
Proof.
  destruct skippingOptions_run as [res Hrun].
  exists res. split; [exact Hrun|].
  exact (proj1 (parse_meta _ _ _ Hrun)).
Defined.

Lemma parse_fields_witness :
  ∃ res names, parse skippingOptions agesText = Ok res
               ∧ CsvMeta.fields (meta res)
                 = Some (rename skippingOptions <$> names).
Proof.
  destruct skippingOptions_run as [res Hrun].
  destruct (parse_fields _ _ _ Hrun) as (_ & Hnames & _).
  destruct (Hnames "name,age" ["John,30"; "Mary,invalid"; "Bob,30"; "Ann,25"])
    as (names & _ & Hf & _); [reflexivity|vm_compute; reflexivity|].
  exists res, names. split; [exact Hrun|exact Hf].
Defined.

Lemma parse_throws_only_from_header_witness :
  parse (H := decimalHost)
    (with_transformHeader (λ _, Throw (ThrownError "bad header"))
       (with_skipInvalidLines true defaultOptions))
    agesText
  = Throw (ThrownError "bad header").
Proof.
  apply parse_throws_only_from_header; [reflexivity|].
  split; [reflexivity|].
  exists "name,age", ["John,30"; "Mary,invalid"; "Bob,30"; "Ann,25"].
  split; vm_compute; reflexivity.
Defined.


Lemma parse_accounting_witness :
  ∃ res, parse skippingOptions agesText = Ok res
         ∧ length (data res) + length (errors res) = 4.
Proof.
  destruct skippingOptions_run as [res Hrun].
  exists res. split; [exact Hrun|].
  apply (parse_accounting _ _ _ _ _ _ skippingOptions_entry Hrun).
  assert (Hs : (r ← parse skippingOptions agesText; Ok (truncatedOf r))
               = Ok false) by (vm_compute; reflexivity).
  rewrite Hrun in Hs. by injection Hs.
Defined.


Lemma parse_plain_witness :
  data <$> parse (H := decimalHost) (with_header false defaultOptions)
             (String.concat JS.LF ["John,30"; ""; "Jane,25"])
  = Ok [ RowArray [VString "John"; VString "30"];
         RowArray [VString "Jane"; VString "25"] ].
Proof.
  rewrite (parse_plain (H := decimalHost) (with_header false defaultOptions));
    [vm_compute; reflexivity|reflexivity..].
Defined.

Lemma parse_preview_is_prefix_witness :
  ∃ full res,
    parse (H := decimalHost) (with_preview 0 defaultOptions) (previewText 5)
    = Ok full
    ∧ parse (with_preview 2 defaultOptions) (previewText 5) = Ok res
    ∧ data res = take 2 (data full).
Proof.
  assert (Hrun : ∃ full, parse (H := decimalHost) (with_preview 0
                           defaultOptions) (previewText 5) = Ok full).
  { set (run := parse _ _).
    assert (Hs : (r ← run; Ok tt) = Ok tt) by (vm_compute; reflexivity).
    clearbody run. destruct run as [full|e]; [by exists full|discriminate Hs]. }
  destruct Hrun as [full Hfull].
  destruct (parse_preview_is_prefix defaultOptions (previewText 5) 2 full)
    as (res & Hres & Hd & _); [reflexivity|exact Hfull|].
  exists full, res. split; [exact Hfull|]. split; [exact Hres|exact Hd].
Defined.

Lemma parse_ignores_skipped_and_spaces_witness :
  sameRows (parse skippingOptions agesTextSpaced)
    (parse skippingOptions agesText).
Proof.
  refine (parse_ignores_skipped_and_spaces skippingOptions agesTextSpaced
            agesText [HName "name"; HName "age"]
            ["John,30"; ""; "  Mary,invalid  "; "Bob,30"; ""; "Ann,25"]
            ["John,30"; "Mary,invalid"; "Bob,30"; "Ann,25"]
            _ _ _ skippingOptions_entry _).
  - refine (entry_header skippingOptions agesTextSpaced "name,age"
              ["John,30"; ""; "  Mary,invalid  "; "Bob,30"; ""; "Ann,25"]
              ["name"; "age"] _ _ _); vm_compute; reflexivity.
  - vm_compute. reflexivity.
Defined.

Lemma parse_single_line_witness :
  JS.split "name,age" (linebreakOf (H := decimalHost) defaultOptions "name,age")
  = ["name,age"].
Proof.
  exact (proj1 (proj2 (parse_single_line (H := decimalHost) defaultOptions
                         "name,age" eq_refl eq_refl eq_refl))).
Defined.

Lemma parse_default_headers_witness :
  length ∘ data <$> parse (H := decimalHost) defaultOptions agesText = Ok 4.
Proof.
  rewrite (parse_default_headers (H := decimalHost) defaultOptions agesText
             "name,age" ["John,30"; "Mary,invalid"; "Bob,30"; "Ann,25"]
             ["name"; "age"]);
    [vm_compute; reflexivity|reflexivity..|].
  intros s Hs. change (HName s ∈ [HName "name"; HName "age"]) in Hs.
  apply elem_of_cons in Hs as [Hs|Hs]; [by injection Hs as ->|].
  apply list_elem_of_singleton in Hs. by injection Hs as ->.
Defined.

Lemma parse_negative_preview_witness :
  ∃ res, parse (H := decimalHost) (with_preview (-1) defaultOptions) agesText
         = Ok res
         ∧ data res = [] ∧ errors res = [] ∧ truncatedOf res = true.
Proof.
  apply (parse_negative_preview (with_preview (-1) defaultOptions) agesText
           [HName "name"; HName "age"] "John,30"
           ["Mary,invalid"; "Bob,30"; "Ann,25"]
           (set_fields [HName "name"; HName "age"]
              (initialResult (with_preview (-1) defaultOptions) agesText)));
    [reflexivity|].
  refine (entry_header (with_preview (-1) defaultOptions) agesText "name,age"
            ["John,30"; "Mary,invalid"; "Bob,30"; "Ann,25"] ["name"; "age"]
            _ _ _); vm_compute; reflexivity.
Defined.
